(** * Janata Audit Bengaluru: the satellite verification engine

    A shallow embedding of the analysis entry points of the repository
    (the Firebase Cloud Functions of [satelliteInspector.ts] and the
    Express bindings of [backend/server.js]) together with a model of
    the engine components that live in the Python scripts
    ([satellite_inspector.py]), which the JavaScript side only spawns. *)

From Stdlib Require Import ZArith QArith Qabs Qminmax Lqa Lia Bool.
From stdpp Require Import base gmap strings list pretty.

Local Open Scope Z_scope.
Set Warnings "-register-all".

(** ** JavaScript values *)

Module Js.

(** A JavaScript number: a finite value (rationals stand for the
    doubles), [NaN], or a signed infinity. *)
Inductive jsnum :=
| Fin (q : Q)
| NaN
| Inf (negative : bool).

(** The JSON-like values that travel through Firestore documents,
    callable payloads and request bodies.  An object is its list of
    fields, the first binding of a key being the live one. *)
Inductive jsval :=
| JUndefined
| JNull
| JBool (b : bool)
| JNum (n : jsnum)
| JStr (s : string)
| JArr (items : list jsval)
| JObj (fields : list (string * jsval)).

Abbreviation fields := (list (string * jsval)).

(** [ToBoolean]: what [!v] and [||] look at. *)
Definition truthy (v : jsval) : bool :=
  match v with
  | JUndefined | JNull => false
  | JBool b => b
  | JNum (Fin q) => negb (Qeq_bool q 0)
  | JNum NaN => false
  | JNum (Inf _) => true
  | JStr s => negb (String.eqb s "")
  | JArr _ | JObj _ => true
  end.

Fixpoint assoc (k : string) (fs : fields) : jsval :=
  match fs with
  | [] => JUndefined
  | (k', v) :: rest => if String.eqb k k' then v else assoc k rest
  end.

(** [v.k]: [None] is the TypeError of reading a property of
    [undefined] or [null]; a primitive has no own fields. *)
Definition prop (v : jsval) (k : string) : option jsval :=
  match v with
  | JUndefined | JNull => None
  | JObj fs => Some (assoc k fs)
  | _ => Some JUndefined
  end.

(** [v?.k] *)
Definition opt_prop (v : jsval) (k : string) : jsval :=
  match prop v k with Some x => x | None => JUndefined end.

(** [a || b] *)
Definition or_else (a b : jsval) : jsval := if truthy a then a else b.

Definition num_strict_eq (a b : jsnum) : bool :=
  match a, b with
  | Fin x, Fin y => Qeq_bool x y
  | Inf s, Inf t => Bool.eqb s t
  | _, _ => false
  end.

(** [a === b] for two values read from two different snapshots:
    primitives compare by value, [NaN] equals nothing, and two
    deserialised objects or arrays are never the same reference. *)
Definition strict_eq (a b : jsval) : bool :=
  match a, b with
  | JUndefined, JUndefined => true
  | JNull, JNull => true
  | JBool x, JBool y => Bool.eqb x y
  | JNum x, JNum y => num_strict_eq x y
  | JStr x, JStr y => String.eqb x y
  | _, _ => false
  end.

Definition num (z : Z) : jsval := JNum (Fin (inject_Z z)).
Definition dec (q : Q) : jsval := JNum (Fin q).

End Js.

Import Js.

(** ** Firestore, child processes and the event loop *)

(** A [DocumentSnapshot]: [None] when [exists] is false, otherwise the
    fields of the document. *)
Definition snapshot := option fields.

Definition snap_exists (s : snapshot) : bool :=
  match s with Some _ => true | None => false end.

(** [snapshot.data()] *)
Definition snap_data (s : snapshot) : jsval :=
  match s with Some fs => JObj fs | None => JUndefined end.

(** The codes of [functions.https.HttpsError] used by the functions. *)
Inductive https_code := Unauthenticated | InvalidArgument | NotFound | Internal.

(** Who is suspended on a spawned Python process: the Firestore
    trigger, the callable, or the Express route with its pending
    response. *)
Inductive waiter :=
| WTrigger (projectId : string)
| WCall (projectId : string)
| WHttp (request : nat).

Record proc := Proc {
  handle : nat;
  awaited_by : waiter;
  started : Z
}.

(** A document of the [satelliteAnalysisLogs] collection. *)
Record log_entry := Log {
  log_projectId : string;
  log_error : string;
  log_timestamp : Z;
  log_status : string
}.

(** What a handler hands back to the party that invoked it. *)
Inductive reply :=
| TriggerReturned (projectId : string)
    (** [satelliteInspector] resolved with [null] *)
| TriggerRejected (projectId : string)
    (** [satelliteInspector] rejected: the log write itself failed *)
| CallReturned (value : jsval)
| CallThrew (code : https_code) (message : string)
| CallCrashed
    (** an exception that is not an [HttpsError] left the callable *)
| HttpResponse (request : nat) (status : Z) (body : jsval)
| ServerCrashed
    (** an exception escaped an event-emitter callback of the server *).

(** Library functions of the Node runtime that are used as they are. *)
Record Runtime := {
  toISOString : Z -> string;
  JSON_parse : string -> option jsval
}.

Record World := {
  clock : Z;                          (** [Date.now()], milliseconds *)
  firestore_up : bool;                (** do Firestore requests succeed *)
  projects : gmap string fields;      (** the [projects] collection *)
  running : list proc;                (** child processes a handler still awaits *)
  killed : list proc;                 (** signalled by a timer, ['close'] still to come *)
  logs : list log_entry;              (** [satelliteAnalysisLogs] *)
  next_handle : nat
}.

Inductive event :=
| FirestoreWrite (projectId : string) (before after : snapshot)
    (** the trigger is delivered for a write the store already holds *)
| ProjectWrite (docId : string) (after : snapshot)
    (** a document of the projects collection is written or deleted,
        and the trigger is delivered for it *)
| CallTrigger (auth : bool) (data : jsval)
| CallGet (auth : bool) (data : jsval)
| PostTrigger (request : nat) (body : fields)
| GetAnalysis (request : nat) (analysisId : string)
| PostAnalyze (request : nat) (body : fields)
| ProcClose (h : nat) (code : option Z) (stdout stderr : string)
| ProcError (h : nat) (message : string)
| Advance (dt : Z).

Definition set_running (w : World) (ps : list proc) : World :=
  {| clock := clock w; firestore_up := firestore_up w; projects := projects w;
     running := ps; killed := killed w; logs := logs w;
     next_handle := next_handle w |}.

Definition set_killed (w : World) (ps : list proc) : World :=
  {| clock := clock w; firestore_up := firestore_up w; projects := projects w;
     running := running w; killed := ps; logs := logs w;
     next_handle := next_handle w |}.

Definition set_clock (w : World) (t : Z) : World :=
  {| clock := t; firestore_up := firestore_up w; projects := projects w;
     running := running w; killed := killed w; logs := logs w;
     next_handle := next_handle w |}.

Definition add_log (w : World) (e : log_entry) : World :=
  {| clock := clock w; firestore_up := firestore_up w; projects := projects w;
     running := running w; killed := killed w; logs := logs w ++ [e];
     next_handle := next_handle w |}.

(** [spawn('python3', ...)]: a new child process, awaited by [k]. *)
Definition spawn (w : World) (k : waiter) : World :=
  {| clock := clock w; firestore_up := firestore_up w; projects := projects w;
     running := running w ++ [Proc (next_handle w) k (clock w)];
     killed := killed w; logs := logs w; next_handle := S (next_handle w) |}.

Definition find_proc (h : nat) (w : World) : option proc :=
  List.find (fun p => Nat.eqb (handle p) h) (running w).

Definition reap (h : nat) (w : World) : World :=
  set_running w (List.filter (fun p => negb (Nat.eqb (handle p) h)) (running w)).

Definition find_killed (h : nat) (w : World) : option proc :=
  List.find (fun p => Nat.eqb (handle p) h) (killed w).

Definition forget (h : nat) (w : World) : World :=
  set_killed w (List.filter (fun p => negb (Nat.eqb (handle p) h)) (killed w)).

(** A write to [projects/{projectId}]: the document is set, or
    deleted when the snapshot after the write does not exist. *)
Definition write_project (w : World) (projectId : string) (after : snapshot)
    : World :=
  {| clock := clock w; firestore_up := firestore_up w;
     projects := match after with
                 | Some doc => <[projectId := doc]> (projects w)
                 | None => delete projectId (projects w)
                 end;
     running := running w; killed := killed w; logs := logs w;
     next_handle := next_handle w |}.

(** Firestore out of reach. *)
Definition outage (w : World) : World :=
  {| clock := clock w; firestore_up := false; projects := projects w;
     running := running w; killed := killed w; logs := logs w;
     next_handle := next_handle w |}.

Definition awaited_by_server (p : proc) : bool :=
  match awaited_by p with WHttp _ => true | _ => false end.

(** An uncaught exception ends the Node process of the Express
    server: its pending timers and listeners are gone, so the child
    processes it had spawned are awaited by nobody.  The Cloud
    Functions are other processes and carry on.  A request that comes
    in later is a request to a server that was started again. *)
Definition crash_server (w : World) : World :=
  set_killed
    (set_running w (List.filter (fun p => negb (awaited_by_server p)) (running w)))
    (List.filter (fun p => negb (awaited_by_server p)) (killed w)).

(** ** [satelliteInspector.ts]: the Cloud Functions *)

(** How the promise of [runSatelliteAnalysis] settles. *)
Inductive settled := Resolved | Rejected (message : string).

Definition code_string (code : option Z) : string :=
  match code with Some c => pretty c | None => "null" end.

(** The ['close'] listener: exit code 0 resolves, anything else
    (a signal leaves [code] null) rejects. *)
Definition on_close (code : option Z) (stderr : string) : settled :=
  match code with
  | Some 0 => Resolved
  | _ => Rejected ("Python script failed with code " +:+ code_string code
                   +:+ ": " +:+ stderr)
  end.

(** [setTimeout(..., 10 * 60 * 1000)] in [runSatelliteAnalysis]. *)
Definition analysis_timeout_ms : Z := 10 * 60 * 1000.

(** [setTimeout(..., 300000)] of the [/analyze-satellite] route. *)
Definition route_timeout_ms : Z := 300000.

Definition timeout_message : string :=
  "Satellite analysis timed out after 10 minutes".

(** [runSatelliteAnalysis(projectId, projectData)]: the promise
    executor spawns the Python script, registers the ['close'] and
    ['error'] listeners and arms the ten-minute timer; the caller is
    suspended on the promise.  What the script computes, and what it
    writes to Firestore, is its own affair. *)
Definition runSatelliteAnalysis (w : World) (caller : waiter) : World :=
  spawn w caller.

Definition isNewDocument (before : snapshot) : bool := negb (snap_exists before).

Definition isStatusUpdate (before after : snapshot) : bool :=
  snap_exists before && snap_exists after
  && negb (strict_eq (opt_prop (snap_data before) "status")
                     (opt_prop (snap_data after) "status")).

(** [!projectData.geoPoint || !projectData.geoPoint.latitude ||
     !projectData.geoPoint.longitude] *)
Definition missing_geoPoint (projectData : jsval) : bool :=
  let geoPoint := opt_prop projectData "geoPoint" in
  negb (truthy geoPoint)
  || negb (truthy (opt_prop geoPoint "latitude"))
  || negb (truthy (opt_prop geoPoint "longitude")).

(** The Firestore [onWrite] handler, up to its [await]: it either
    returns [null] at once or spawns the Python process and suspends. *)
Definition satelliteInspector (w : World) (projectId : string)
    (before after : snapshot) : World * list reply :=
  if negb (isNewDocument before) && negb (isStatusUpdate before after)
  then (w, [TriggerReturned projectId])
  else
    let projectData := snap_data after in
    if negb (truthy projectData) then (w, [TriggerReturned projectId])
    else if missing_geoPoint projectData then (w, [TriggerReturned projectId])
    else (runSatelliteAnalysis w (WTrigger projectId), []).

(** The rest of [satelliteInspector] once the promise settles: the
    [catch] block writes a log document and still returns [null]. *)
Definition resume_trigger (w : World) (projectId : string) (r : settled)
    : World * list reply :=
  match r with
  | Resolved => (w, [TriggerReturned projectId])
  | Rejected message =>
      if firestore_up w
      then (add_log w (Log projectId message (clock w) "failed"),
            [TriggerReturned projectId])
      else (w, [TriggerRejected projectId])
  end.

(** ** Document paths *)

Fixpoint has_slash (s : string) : bool :=
  match s with
  | EmptyString => false
  | String c rest => String.eqb (String c EmptyString) "/" || has_slash rest
  end.

Definition ends_with_underscores (s : string) : bool :=
  String.eqb (String.substring (String.length s - 2) 2 s) "__".

(** The ids under which Firestore keeps a document: not empty, one
    path segment, neither [.] nor [..] nor of the form [__.*__], at
    most 1500 bytes. *)
Definition valid_document_id (id : string) : bool :=
  negb (String.eqb id "") && negb (has_slash id)
  && negb (String.eqb id ".") && negb (String.eqb id "..")
  && negb (String.prefix "__" id && ends_with_underscores id
           && (4 <=? String.length id)%nat)
  && (String.length id <=? 1500)%nat.

Definition is_slash (c : Ascii.ascii) : bool :=
  String.eqb (String c EmptyString) "/".

(** [path.split('/')] *)
Fixpoint split_slash (path : string) : list string :=
  match path with
  | EmptyString => [EmptyString]
  | String c rest =>
      if is_slash c then EmptyString :: split_slash rest
      else match split_slash rest with
           | segment :: more => String c segment :: more
           | [] => [String c EmptyString]
           end
  end.

(** [path.split('/').filter(segment => segment.length > 0)], the way
    the client takes a relative path apart. *)
Definition segments (path : string) : list string :=
  List.filter (fun segment => negb (String.eqb segment "")) (split_slash path).

Fixpoint has_double_slash (path : string) : bool :=
  match path with
  | String a (String b _ as rest) =>
      (is_slash a && is_slash b) || has_double_slash rest
  | _ => false
  end.

(** What the server takes for the id of a document. *)
Definition acceptable_segment (segment : string) : bool :=
  negb (String.eqb segment ".") && negb (String.eqb segment "..")
  && negb (String.prefix "__" segment && ends_with_underscores segment
           && (4 <=? String.length segment)%nat)
  && (String.length segment <=? 1500)%nat.

(** [collection.doc(path)] of the Admin SDK: it throws ([None])
    unless the path is a non-empty string without [//] that names a
    document, which under a collection takes an odd number of
    segments. *)
Definition doc (path : string) : option (list string) :=
  if String.eqb path "" || has_double_slash path then None
  else if Nat.odd (length (segments path)) then Some (segments path)
  else None.

Inductive lookup_result :=
| LookupThrows
| NoSuchDocument
| Found (id : string) (data : fields).

(** [collection.doc(path).get()] with Firestore in reach.  A path of
    one segment names a document of the collection, under the id
    that is left once the slashes around it are gone.  The collections
    here have no subcollections, so a deeper path names a document
    that is not there. *)
Definition get_document (collection : gmap string fields) (path : string)
    : lookup_result :=
  match doc path with
  | None => LookupThrows
  | Some names =>
      if negb (List.forallb acceptable_segment names) then LookupThrows
      else
        match names with
        | [id] =>
            match collection !! id with
            | Some data => Found id data
            | None => NoSuchDocument
            end
        | _ => NoSuchDocument
        end
  end.

(** What leaves a [try] block by [throw]. *)
Inductive thrown :=
| ThrowHttps (code : https_code) (message : string)
| ThrowOther.

(** [db.collection('projects').doc(projectId).get()].  A document
    kept under [projectId] itself is the one read: Firestore keeps
    documents under ids that are their own path.  Any other
    [projectId] is resolved as a path. *)
Definition read_project (w : World) (projectId : string) : lookup_result :=
  match projects w !! projectId with
  | Some data => Found projectId data
  | None => get_document (projects w) projectId
  end.

(** The lookup of the project and the two existence checks, as both
    callables write them inside [try].  What is handed on is the
    [projectId] as it was sent. *)
Definition load_project (w : World) (projectId : jsval) : thrown + (string * fields) :=
  match projectId with
  | JStr id =>
      if firestore_up w then
        match read_project w id with
        | LookupThrows => inl ThrowOther
        | NoSuchDocument => inl (ThrowHttps NotFound "Project not found")
        | Found _ fs =>
            if negb (truthy (JObj fs))
            then inl (ThrowHttps NotFound "Project data not found")
            else inr (id, fs)
        end
      else inl ThrowOther
  | _ => inl ThrowOther
  end.

(** The callable [triggerSatelliteAnalysis], up to its [await]. *)
Definition triggerSatelliteAnalysis (w : World) (auth : bool) (data : jsval)
    : World * list reply :=
  if negb auth then (w, [CallThrew Unauthenticated "User must be authenticated"])
  else
    match prop data "projectId" with
    | None => (w, [CallCrashed])
    | Some projectId =>
        if negb (truthy projectId)
        then (w, [CallThrew InvalidArgument "Project ID is required"])
        else
          match load_project w projectId with
          | inr (id, _) => (runSatelliteAnalysis w (WCall id), [])
          | inl _ => (w, [CallThrew Internal "Failed to trigger satellite analysis"])
          end
    end.

(** The rest of [triggerSatelliteAnalysis] once the promise settles. *)
Definition resume_call (w : World) (projectId : string) (r : settled)
    : World * list reply :=
  match r with
  | Resolved =>
      (w, [CallReturned (JObj [("success", JBool true);
             ("message", JStr ("Satellite analysis triggered for project " +:+ projectId));
             ("projectId", JStr projectId)])])
  | Rejected _ => (w, [CallThrew Internal "Failed to trigger satellite analysis"])
  end.

(** The callable [getSatelliteAnalysis]. *)
Definition getSatelliteAnalysis (w : World) (auth : bool) (data : jsval) : reply :=
  if negb auth then CallThrew Unauthenticated "User must be authenticated"
  else
    match prop data "projectId" with
    | None => CallCrashed
    | Some projectId =>
        if negb (truthy projectId)
        then CallThrew InvalidArgument "Project ID is required"
        else
          match load_project w projectId with
          | inr (_, projectData) =>
              let satelliteAnalysis := assoc "satelliteAnalysis" projectData in
              if negb (truthy satelliteAnalysis)
              then CallReturned (JObj [("success", JBool false);
                     ("message", JStr "No satellite analysis available for this project")])
              else CallReturned (JObj [("success", JBool true);
                     ("analysis", satelliteAnalysis)])
          | inl _ => CallThrew Internal "Failed to get satellite analysis"
          end
    end.

(** ** [backend/server.js]: the Express bindings *)

Definition error_body (message : string) : jsval :=
  JObj [("error", JStr message)].

(** [POST /api/trigger-satellite-analysis] *)
Definition postTriggerSatelliteAnalysis (w : World) (request : nat)
    (body : fields) : World * list reply :=
  let projectId := assoc "projectId" body in
  let projectData := assoc "projectData" body in
  if negb (truthy projectId) || negb (truthy projectData)
  then (w, [HttpResponse request 400 (error_body "Missing projectId or projectData")])
  else (w, [HttpResponse request 200 (JObj [
              ("success", JBool true);
              ("message", JStr "Satellite analysis triggered");
              ("analysisId", JStr ("analysis_" +:+ pretty (clock w)));
              ("status", JStr "processing")])]).

(** The [results] record of [GET /api/satellite-analysis/:analysisId]. *)
Definition mock_results (rt : Runtime) (now : Z) : jsval :=
  JObj [("ndbiChange", dec (15 # 100));
        ("structureDetected", JBool true);
        ("progressPercentage", num 75);
        ("redFlags", JArr []);
        ("confidence", dec (85 # 100));
        ("lastUpdated", JStr (toISOString rt now))].

(** [GET /api/satellite-analysis/:analysisId] *)
Definition getSatelliteAnalysisById (rt : Runtime) (w : World) (request : nat)
    (analysisId : string) : World * list reply :=
  (w, [HttpResponse request 200 (JObj [
         ("analysisId", JStr analysisId);
         ("status", JStr "completed");
         ("results", mock_results rt (clock w))])]).

(** [POST /analyze-satellite], up to the spawn of the analyzer. *)
Definition postAnalyzeSatellite (w : World) (request : nat) (body : fields)
    : World * list reply :=
  if negb (truthy (assoc "projectId" body))
     || negb (truthy (assoc "latitude" body))
     || negb (truthy (assoc "longitude" body))
  then (w, [HttpResponse request 400 (error_body "Missing required parameters")])
  else (spawn w (WHttp request), []).

(** The ['close'] listener of [/analyze-satellite]. *)
Definition route_on_close (rt : Runtime) (request : nat) (code : option Z)
    (output errorOutput : string) : reply :=
  let parse_failure :=
    HttpResponse request 500 (JObj [
      ("error", JStr "Failed to parse analysis results");
      ("details", JStr output)]) in
  match code with
  | Some 0 =>
      match JSON_parse rt output with
      | None => parse_failure
      | Some result =>
          match prop result "error" with
          | None => parse_failure
          | Some err =>
              if truthy err
              then HttpResponse request 500 (JObj [("error", err)])
              else HttpResponse request 200 (JObj [
                     ("success", JBool true);
                     ("analysisReport", or_else (opt_prop result "analysisReport") result);
                     ("projectId", opt_prop result "projectId")])
          end
      end
  | _ => HttpResponse request 500 (JObj [
           ("error", JStr "Analysis failed");
           ("details", JStr errorOutput)])
  end.

(** ** One turn of the event loop *)

Definition timeout_of (k : waiter) : Z :=
  match k with
  | WTrigger _ | WCall _ => analysis_timeout_ms
  | WHttp _ => route_timeout_ms
  end.

Definition deadline (p : proc) : Z := started p + timeout_of (awaited_by p).

Definition due (now : Z) (p : proc) : bool := deadline p <=? now.

(** The timer callback of a process that is still awaited: the
    process has been sent the kill signal, the waiter is failed. *)
Definition fire (w : World) (p : proc) : World * list reply :=
  match awaited_by p with
  | WTrigger projectId => resume_trigger w projectId (Rejected timeout_message)
  | WCall projectId => resume_call w projectId (Rejected timeout_message)
  | WHttp request => (w, [HttpResponse request 408 (error_body "Analysis timeout")])
  end.

(** What the timer of one process hands to its waiter. *)
Definition timeout_reply (w : World) (p : proc) : reply :=
  match awaited_by p with
  | WTrigger projectId =>
      if firestore_up w then TriggerReturned projectId else TriggerRejected projectId
  | WCall _ => CallThrew Internal "Failed to trigger satellite analysis"
  | WHttp request => HttpResponse request 408 (error_body "Analysis timeout")
  end.

Fixpoint fire_all (w : World) (ps : list proc) : World * list reply :=
  match ps with
  | [] => (w, [])
  | p :: rest =>
      let '(w1, r1) := fire w p in
      let '(w2, r2) := fire_all w1 rest in
      (w2, r1 ++ r2)
  end.

(** Time passes: every timer that has come due kills its process
    ([pythonProcess.kill()]) and fails its waiter.  The timer of a
    process that has already ended finds nothing left to do. *)
Definition advance (w : World) (dt : Z) : World * list reply :=
  let now := clock w + Z.max 0 dt in
  let expired := List.filter (due now) (running w) in
  let alive := List.filter (fun p => negb (due now p)) (running w) in
  fire_all (set_killed (set_running (set_clock w now) alive) (killed w ++ expired))
           expired.

(** The ['close'] of a process that its timer had killed.  The promise
    of [runSatelliteAnalysis] is settled already; the route, whose
    response went out with the 408, sends again and throws, and the
    server goes down with the exception. *)
Definition late_close (w : World) (h : nat) : World * list reply :=
  match find_killed h w with
  | None => (w, [])
  | Some p =>
      match awaited_by p with
      | WTrigger _ | WCall _ => (forget h w, [])
      | WHttp _ => (crash_server (forget h w), [ServerCrashed])
      end
  end.

(** A child process ends. *)
Definition proc_close (rt : Runtime) (w : World) (h : nat) (code : option Z)
    (stdout stderr : string) : World * list reply :=
  match find_proc h w with
  | None => late_close w h
  | Some p =>
      let w' := reap h w in
      match awaited_by p with
      | WTrigger projectId => resume_trigger w' projectId (on_close code stderr)
      | WCall projectId => resume_call w' projectId (on_close code stderr)
      | WHttp request => (w', [route_on_close rt request code stdout stderr])
      end
  end.

(** A child process could not be started or be signalled.  The
    [/analyze-satellite] route registers no ['error'] listener, so the
    event is thrown and the server goes down with it. *)
Definition proc_error (w : World) (h : nat) (message : string)
    : World * list reply :=
  match find_proc h w with
  | None => late_close w h
  | Some p =>
      let w' := reap h w in
      match awaited_by p with
      | WTrigger projectId => resume_trigger w' projectId (Rejected message)
      | WCall projectId => resume_call w' projectId (Rejected message)
      | WHttp _ => (crash_server w', [ServerCrashed])
      end
  end.

Definition step (rt : Runtime) (w : World) (e : event) : World * list reply :=
  match e with
  | FirestoreWrite projectId before after => satelliteInspector w projectId before after
  | ProjectWrite projectId after =>
      match projects w !! projectId, after with
      | None, None => (w, [])
      | before, _ =>
          satelliteInspector (write_project w projectId after) projectId before after
      end
  | CallTrigger auth data => triggerSatelliteAnalysis w auth data
  | CallGet auth data => (w, [getSatelliteAnalysis w auth data])
  | PostTrigger request body => postTriggerSatelliteAnalysis w request body
  | GetAnalysis request analysisId => getSatelliteAnalysisById rt w request analysisId
  | PostAnalyze request body => postAnalyzeSatellite w request body
  | ProcClose h code stdout stderr => proc_close rt w h code stdout stderr
  | ProcError h message => proc_error w h message
  | Advance dt => advance w dt
  end.

(** Running a whole schedule of events, collecting the replies. *)
Fixpoint run (rt : Runtime) (w : World) (es : list event) : World * list reply :=
  match es with
  | [] => (w, [])
  | e :: rest =>
      let '(w1, r1) := step rt w e in
      let '(w2, r2) := run rt w1 rest in
      (w2, r1 ++ r2)
  end.

(** The analysis runs in flight for a project id. *)
Definition runs_for (projectId : string) (p : proc) : bool :=
  match awaited_by p with
  | WTrigger id | WCall id => String.eqb id projectId
  | WHttp _ => false
  end.

Definition active_runs (projectId : string) (w : World) : nat :=
  length (List.filter (runs_for projectId) (running w)).

(** How many processes a transition started. *)
Definition spawned (w w' : World) : nat := next_handle w' - next_handle w.

(** A fresh deployment: nothing running, nothing logged. *)
Definition boot (db : gmap string fields) : World :=
  {| clock := 0; firestore_up := true; projects := db;
     running := []; killed := []; logs := []; next_handle := 0%nat |}.

(** Every process that is still awaited is short of its deadline. *)
Definition timely (w : World) : Prop :=
  forall p, In p (running w) -> clock w < deadline p.

(** ** The engine behind the spawned script

    [satellite_inspector.py] is started by the functions above but is
    not part of the JavaScript sources.  Its components are modelled
    from the design document, one definition per component, with exact
    rationals in place of floating-point numbers. *)

Module Engine.

Local Open Scope Q_scope.

Definition Qlt_bool (a b : Q) : bool := negb (Qle_bool b a).

(** [n] percent, as the fraction the comparator's formula produces. *)
Definition pct (n : Z) : Q := n # 100.

(** Modelled from the spec: the claimed and detected status of
    section 3. *)
Inductive Status := Pending | InProgress | Completed | Cancelled.

(** Modelled from the spec: the severity of a mismatch. *)
Inductive Severity := SevNone | Low | Medium | High.

(** Modelled from the spec: the two period labels. *)
Inductive Period := Before | After.

(** Modelled from the spec: a geographic point. *)
Record GeoPoint := { latitude : Q; longitude : Q }.


(** Modelled from the spec: centre point and radius. *)
Record RegionOfInterest := { center : GeoPoint; radius : Q }.

(** Modelled from the spec: one pixel of a scene's band data, with its
    short-wave and near-infrared values. *)
Record Pixel := { position : Q * Q; shortwave : Q; nearInfrared : Q }.

(** Modelled from the spec: the [SceneRef] of section 3, its band-data
    handle replaced by the band data. *)
Record SceneRef := {
  sceneId : string;
  captureDate : Q;
  cloudCover : Q;
  bands : list Pixel
}.

(** Modelled from the spec: the [IndexSample] of section 3. *)
Record IndexSample := {
  period : Period;
  value : Q;
  sampleScene : SceneRef
}.

(** Modelled from the spec: a percentage delta is a float, so it is
    either a finite number or one of NaN and the infinities. *)
Inductive fval := Finite (q : Q) | NotFinite.

(** Modelled from the spec: the [ChangeEstimate] of section 3, with
    the low-confidence mark of section 4.5. *)
Record ChangeEstimate := {
  beforeValue : Q;
  afterValue : Q;
  absoluteDelta : Q;
  percentageDelta : fval;
  durationMonths : Q;
  lowConfidence : bool
}.



(** *** 4.1 Region Resolver *)

Definition defaultRadius : Q := 500.

Definition validPoint (p : GeoPoint) : bool :=
  Qle_bool (-(90)) (latitude p) && Qle_bool (latitude p) 90
  && Qle_bool (-(180)) (longitude p) && Qle_bool (longitude p) 180.


(** *** 4.2, 4.3 Scene Catalog Adapter and Scene Selector *)





(** *** 4.4 Spectral Index Calculator *)

(** Modelled from the spec: a scene with one more pixel in its band
    data. *)
Definition withPixel (p : Pixel) (scene : SceneRef) : SceneRef :=
  {| sceneId := sceneId scene; captureDate := captureDate scene;
     cloudCover := cloudCover scene; bands := p :: bands scene |}.

Section Calculator.

(** Which pixels of a scene lie inside a region: the geometry is the
    imagery provider's. *)
Variable inRegion : RegionOfInterest -> Pixel -> bool.

(** Modelled from the spec: the per-pixel built-up index of section
    4.4; a pixel whose denominator is zero has no index. *)
Definition index (p : Pixel) : option Q :=
  let d := shortwave p + nearInfrared p in
  if Qeq_bool d 0 then None else Some ((shortwave p - nearInfrared p) / d).

Fixpoint indices (ps : list Pixel) : list Q :=
  match ps with
  | [] => []
  | p :: rest =>
      match index p with
      | Some v => v :: indices rest
      | None => indices rest
      end
  end.

Definition Qsum (l : list Q) : Q := List.fold_right Qplus 0 l.

Definition count (l : list Q) : Q := inject_Z (Z.of_nat (length l)).

(** Modelled from the spec: the arithmetic mean of section 4.4,
    undefined on no values. *)
Definition mean (l : list Q) : option Q :=
  match l with
  | [] => None
  | _ => Some (Qsum l / count l)
  end.

(** Modelled from the spec: the reducer of section 4.4, the mean of
    the index over the in-region pixels that have one. *)
Definition meanIndex (roi : RegionOfInterest) (scene : SceneRef) : option Q :=
  mean (indices (List.filter (inRegion roi) (bands scene))).

(** Modelled from the spec: the closed interval from -1 to 1. *)
Definition unit_interval (v : Q) : Prop := -(1) <= v /\ v <= 1.

Definition nonnegative (p : Pixel) : Prop :=
  0 <= shortwave p /\ 0 <= nearInfrared p.

(** Modelled from the spec: band data is valid when no reflectance is
    negative. *)
Definition validBands (scene : SceneRef) : bool :=
  List.forallb (fun p => Qle_bool 0 (shortwave p) && Qle_bool 0 (nearInfrared p))
               (bands scene).


End Calculator.

(** *** 4.5 Temporal Comparator *)

Definition defaultEpsilon : Q := 1 # 100.

(** Modelled from the spec: division as the floating-point unit
    performs it, with no finite quotient by zero. *)
Definition fdiv (a b : Q) : fval :=
  if Qeq_bool b 0 then NotFinite else Finite (a / b).

(** Modelled from the spec: the comparator of section 4.5 with its
    clamped denominator and low-confidence mark. *)
Definition compareSamples (epsilon : Q) (start : Q) (before after : IndexSample)
    : ChangeEstimate :=
  {| beforeValue := value before;
     afterValue := value after;
     absoluteDelta := value after - value before;
     percentageDelta :=
       fdiv (value after - value before) (Qmax (Qabs (value before)) epsilon);
     durationMonths := captureDate (sampleScene after) - start;
     lowConfidence := Qlt_bool (Qabs (value before)) epsilon |}.

(** Modelled from the spec: the same quotient without the clamp, the
    blow-up that section 4.5 guards against. *)
Definition unguardedDelta (before after : Q) : fval :=
  fdiv (after - before) (Qabs before).

(** *** 4.6 Status Classifier *)



Section Policy.

Variable inRegion : RegionOfInterest -> Pixel -> bool.
Variable epsilon : Q.
(** The score that "high confidence" stands for. *)
Variable highConfidence : Q.
(** Whether a structure-density signal counts as high. *)
Variable dense : Q -> bool.
(** The advisory texts of each severity tier. *)
Variable advice : Severity -> list string.




(** *** 4.7 Mismatch Evaluator *)

(** Modelled from the spec: the policy table of expected change per
    claimed status (also the table of SATELLITE_INSPECTOR.md). *)
Definition expectedRange (claimed : Status) : Q * Q :=
  match claimed with
  | Pending => (pct 0, pct 5)
  | InProgress => (pct 5, pct 50)
  | Completed => (pct 10, pct 100)
  | Cancelled => (pct 0, pct 10)
  end.

(** Modelled from the spec: the observed change falls outside the
    expected range, ends included in the range. *)
Definition outsideRange (claimed : Status) (observed : Q) : bool :=
  Qlt_bool observed (fst (expectedRange claimed))
  || Qlt_bool (snd (expectedRange claimed)) observed.

(** Modelled from the spec: within 2 percentage points of one of the
    two boundaries. *)
Definition borderline (claimed : Status) (observed : Q) : bool :=
  Qle_bool (Qabs (observed - fst (expectedRange claimed))) (pct 2)
  || Qle_bool (Qabs (observed - snd (expectedRange claimed))) (pct 2).

Definition isInProgress (s : Status) : bool :=
  match s with InProgress => true | _ => false end.

Definition isPending (s : Status) : bool :=
  match s with Pending => true | _ => false end.

(** Modelled from the spec: the severity tiers of section 4.7, tried
    from the gravest down.  A mismatch that fits no listed tier is a
    plain status/change mismatch, which SATELLITE_INSPECTOR.md grades
    medium. *)
Definition gradeSeverity (claimed : Status) (months observed : Q) : Severity :=
  if negb (outsideRange claimed observed) then SevNone
  else if isInProgress claimed && Qle_bool 6 months && Qlt_bool observed (pct 5)
       then High
  else if Qlt_bool months 6 || (isPending claimed && Qlt_bool (pct 20) observed)
       then Medium
  else if borderline claimed observed then Low
  else Medium.

(** Modelled from the spec: the Mismatch Evaluator on a claimed
    status, a project age in months and an observed change. *)
Definition evaluateMismatch (claimed : Status) (months observed : Q)
    : bool * Severity :=
  (outsideRange claimed observed, gradeSeverity claimed months observed).


(** *** 4.8 Analysis Orchestrator *)


















End Policy.

(** *** Backoff between the attempts of a fetch step *)

Section Backoff.

(** The first delay and the bound on every delay. *)
Variables backoffBase backoffCap : Q.



End Backoff.

End Engine.

(** ** Sample inputs *)

(** Two pixels of built-up and of vegetated ground, and one without
    any signal. *)
Definition sample_scene : Engine.SceneRef :=
  {| Engine.sceneId := "S2A_20240110"; Engine.captureDate := 648%Q;
     Engine.cloudCover := (5 # 100)%Q;
     Engine.bands :=
       [ {| Engine.position := (0, 0)%Q; Engine.shortwave := (3 # 10)%Q;
            Engine.nearInfrared := (1 # 10)%Q |};
         {| Engine.position := (10, 0)%Q; Engine.shortwave := (1 # 10)%Q;
            Engine.nearInfrared := (4 # 10)%Q |};
         {| Engine.position := (20, 0)%Q; Engine.shortwave := 0%Q;
            Engine.nearInfrared := 0%Q |} ] |}.

Definition sample_region : Engine.RegionOfInterest :=
  {| Engine.center := {| Engine.latitude := (129716 # 10000)%Q;
                         Engine.longitude := (775946 # 10000)%Q |};
     Engine.radius := Engine.defaultRadius |}.

Definition everywhere (_ : Engine.RegionOfInterest) (_ : Engine.Pixel) : bool := true.

(** A sample whose index is exactly zero, and one after construction. *)
Definition flat_sample : Engine.IndexSample :=
  {| Engine.period := Engine.Before; Engine.value := 0%Q;
     Engine.sampleScene := sample_scene |}.

Definition built_sample : Engine.IndexSample :=
  {| Engine.period := Engine.After; Engine.value := (1 # 5)%Q;
     Engine.sampleScene := sample_scene |}.







(** A runtime for evaluating schedules: dates print as their
    millisecond count, and no output parses. *)
Definition plain_runtime : Runtime :=
  {| toISOString := fun t => pretty t; JSON_parse := fun _ => None |}.

Definition geoPoint_of (lat lng : Q) : jsval :=
  JObj [("latitude", dec lat); ("longitude", dec lng)].

(** A road project in Bengaluru. *)
Definition road_project : fields :=
  [("projectName", JStr "Ward 12 road resurfacing");
   ("geoPoint", geoPoint_of (129716 # 10000) (775946 # 10000));
   ("status", JStr "In Progress")].

(** A project whose coordinates are not on the globe. *)
Definition stray_project : fields :=
  [("projectName", JStr "Flyover"); ("geoPoint", geoPoint_of 95 200);
   ("status", JStr "Pending")].

(** A project without any location. *)
Definition unlocated_project : fields :=
  [("projectName", JStr "Park"); ("status", JStr "Pending")].

Definition call_for (projectId : string) : jsval :=
  JObj [("projectId", JStr projectId)].

(** The spec's notion of an analyzable location, read off a project
    document: a point is present and within the bounds of latitude
    and longitude. *)
Definition spec_analyzable (projectData : jsval) : bool :=
  match opt_prop projectData "geoPoint" with
  | JObj g =>
      match assoc "latitude" g, assoc "longitude" g with
      | JNum (Fin lat), JNum (Fin lng) =>
          Engine.validPoint {| Engine.latitude := lat; Engine.longitude := lng |}
      | _, _ => false
      end
  | _ => false
  end.

(** ** Objects built by the handlers *)

(** [obj[k] = v] on a field list: the live binding is replaced where
    it stands, a new key goes to the end. *)
Fixpoint set_field (k : string) (v : jsval) (fs : fields) : fields :=
  match fs with
  | [] => [(k, v)]
  | (k', v') :: rest =>
      if String.eqb k k' then (k, v) :: rest else (k', v') :: set_field k v rest
  end.

(** [{ ...acc, ...src }]: every live field of [src] is set on [acc].
    The order in which the keys come out, which a reader of the JSON
    does not see, is not kept. *)
Fixpoint spread (acc src : fields) : fields :=
  match src with
  | [] => acc
  | (k, v) :: rest => set_field k v (spread acc rest)
  end.

Fixpoint has_key (k : string) (fs : fields) : bool :=
  match fs with
  | [] => false
  | (k', _) :: rest => String.eqb k k' || has_key k rest
  end.

(** ** [backend/server.js]: the feedback and project routes;
       [functions/src/index.ts]: the remaining callables *)

(** Library functions used as they are: [parseInt], and
    [Timestamp.fromDate(new Date(v))], which throws on a value that is
    no date. *)
Record Library := {
  parseInt : jsval -> jsnum;
  timestampOf : jsval -> option jsval
}.

(** Firestore beyond the projects collection, and the [db] variable
    of server.js, which stays undefined when no service account was
    found at start-up. *)
Record Store := {
  base : World;
  express_db : bool;
  users : gmap string fields;
  userFeedback : gmap string fields;
  pendingProjects : gmap string fields
}.

Definition put_project (w : World) (id : string) (doc : fields) : World :=
  {| clock := clock w; firestore_up := firestore_up w;
     projects := <[id := doc]> (projects w);
     running := running w; killed := killed w; logs := logs w;
     next_handle := next_handle w |}.

Definition with_base (s : Store) (w : World) : Store :=
  {| base := w; express_db := express_db s; users := users s;
     userFeedback := userFeedback s; pendingProjects := pendingProjects s |}.

Definition with_feedback (s : Store) (fb : gmap string fields) : Store :=
  {| base := base s; express_db := express_db s; users := users s;
     userFeedback := fb; pendingProjects := pendingProjects s |}.

Definition with_pending (s : Store) (pp : gmap string fields) : Store :=
  {| base := base s; express_db := express_db s; users := users s;
     userFeedback := userFeedback s; pendingProjects := pp |}.

(** [admin.firestore.FieldValue.serverTimestamp()], once written. *)
Definition serverTimestamp (s : Store) : jsval := num (clock (base s)).

(** [POST /api/submit-feedback].  [assigned] is the id under which
    Firestore stores the added document, [None] when [add] rejects. *)
Definition postSubmitFeedback (lib : Library) (s : Store) (request : nat)
    (assigned : option string) (body : fields) : Store * reply :=
  let projectId := assoc "projectId" body in
  let feedback := assoc "feedback" body in
  let rating := assoc "rating" body in
  let location := assoc "location" body in
  let userId := assoc "userId" body in
  if negb (truthy projectId) || negb (truthy feedback) || negb (truthy rating)
  then (s, HttpResponse request 400 (error_body "Missing required fields"))
  else if negb (express_db s)
  then (s, HttpResponse request 500 (error_body "Database not initialized"))
  else
    let feedbackData :=
      [("projectId", projectId);
       ("feedback", feedback);
       ("rating", JNum (parseInt lib rating));
       ("location", or_else location JNull);
       ("userId", or_else userId (JStr "anonymous"));
       ("timestamp", serverTimestamp s);
       ("status", JStr "pending")] in
    match assigned with
    | Some id =>
        (with_feedback s (<[id := feedbackData]> (userFeedback s)),
         HttpResponse request 200 (JObj [
           ("success", JBool true);
           ("feedbackId", JStr id);
           ("message", JStr "Feedback submitted successfully")]))
    | None => (s, HttpResponse request 500 (error_body "Internal server error"))
    end.

Definition requiredFields : list string :=
  ["projectName"; "description"; "location"; "budget"]%string.

(** The [for] loop over [requiredFields]: the first field that is
    falsy in the body. *)
Fixpoint first_missing (required : list string) (projectData : fields)
    : option string :=
  match required with
  | [] => None
  | field :: rest =>
      if negb (truthy (assoc field projectData)) then Some field
      else first_missing rest projectData
  end.

(** [{ ...projectData, status: 'pending', submittedBy: ..., timestamp:
    ..., upvotes: 0, downvotes: 0 }] *)
Definition submitted_project (s : Store) (projectData : fields) : fields :=
  set_field "downvotes" (num 0)
    (set_field "upvotes" (num 0)
       (set_field "timestamp" (serverTimestamp s)
          (set_field "submittedBy"
             (or_else (assoc "userId" projectData) (JStr "anonymous"))
             (set_field "status" (JStr "pending") (spread [] projectData))))).

(** [POST /api/submit-project] *)
Definition postSubmitProject (s : Store) (request : nat)
    (assigned : option string) (projectData : fields) : Store * reply :=
  match first_missing requiredFields projectData with
  | Some field =>
      (s, HttpResponse request 400
            (error_body ("Missing required field: " +:+ field)))
  | None =>
      if negb (express_db s)
      then (s, HttpResponse request 500 (error_body "Database not initialized"))
      else
        match assigned with
        | Some id =>
            (with_base s (put_project (base s) id (submitted_project s projectData)),
             HttpResponse request 200 (JObj [
               ("success", JBool true);
               ("projectId", JStr id);
               ("message", JStr "Project submitted successfully")]))
        | None => (s, HttpResponse request 500 (error_body "Internal server error"))
        end
  end.

(** [GET /api/projects/:id] *)
Definition getProjectById (s : Store) (request : nat) (id : string) : reply :=
  if negb (express_db s)
  then HttpResponse request 500 (error_body "Database not initialized")
  else if negb (firestore_up (base s))
  then HttpResponse request 500 (error_body "Internal server error")
  else
    match get_document (projects (base s)) id with
    | LookupThrows => HttpResponse request 500 (error_body "Internal server error")
    | NoSuchDocument => HttpResponse request 404 (error_body "Project not found")
    | Found docId data =>
        HttpResponse request 200 (JObj (spread [("id", JStr docId)] data))
    end.

(** [new admin.firestore.GeoPoint(latitude, longitude)]: the
    constructor throws unless both are numbers, the latitude between
    -90 and 90 and the longitude between -180 and 180. *)
Definition new_GeoPoint (latitude longitude : jsval) : option jsval :=
  match latitude, longitude with
  | JNum (Fin lat), JNum (Fin lng) =>
      if Engine.validPoint {| Engine.latitude := lat; Engine.longitude := lng |}
      then Some (JObj [("latitude", JNum (Fin lat)); ("longitude", JNum (Fin lng))])
      else None
  | _, _ => None
  end.

(** [v ? Timestamp.fromDate(new Date(v)) : null] *)
Definition optional_date (lib : Library) (v : jsval) : option jsval :=
  if truthy v then timestampOf lib v else Some JNull.

(** The [try] block of [submitUserProject]: the document it hands to
    [add], or what it throws before. *)
Definition pending_project_of (lib : Library) (s : Store) (userId : string)
    (data : jsval) : thrown + fields :=
  let field k := opt_prop data k in
  if negb (truthy (field "projectName")) || negb (truthy (field "description"))
     || negb (truthy (field "wardNumber")) || negb (truthy (field "latitude"))
     || negb (truthy (field "longitude"))
  then inl (ThrowHttps InvalidArgument
              "Missing required fields: projectName, description, wardNumber, latitude, longitude")
  else
    match new_GeoPoint (field "latitude") (field "longitude") with
    | None => inl ThrowOther
    | Some geoPoint =>
        match optional_date lib (field "startDate"),
              optional_date lib (field "endDate") with
        | Some startDate, Some endDate =>
            inr [("projectName", field "projectName");
                 ("description", field "description");
                 ("wardNumber", field "wardNumber");
                 ("geoPoint", geoPoint);
                 ("budget", or_else (field "budget") JNull);
                 ("status", JStr "pending_approval");
                 ("department", or_else (field "department") (JStr "Unknown"));
                 ("startDate", startDate);
                 ("endDate", endDate);
                 ("contractorName", or_else (field "contractorName") JNull);
                 ("sourceURL", or_else (field "sourceURL") JNull);
                 ("submittedBy", JStr userId);
                 ("submittedAt", serverTimestamp s)]
        | _, _ => inl ThrowOther
        end
    end.

(** The callable [submitUserProject].  The object literal names
    [status] twice; the later value, 'pending_approval', is the one
    that stays. *)
Definition submitUserProject (lib : Library) (s : Store) (auth : option string)
    (assigned : option string) (data : jsval) : Store * reply :=
  match auth with
  | None => (s, CallThrew Unauthenticated "User must be authenticated")
  | Some userId =>
      match prop data "projectName" with
      | None => (s, CallCrashed)
      | Some _ =>
          match pending_project_of lib s userId data, assigned with
          | inr pendingProjectData, Some id =>
              (with_pending s (<[id := pendingProjectData]> (pendingProjects s)),
               CallReturned (JObj [("success", JBool true);
                                   ("pendingProjectId", JStr id)]))
          | _, _ => (s, CallThrew Internal "Failed to submit project")
          end
      end
  end.

Definition is_undefined (v : jsval) : bool :=
  match v with JUndefined => true | _ => false end.

(** What the [try] block of [submitFeedback] can throw: what the
    satellite callables throw, and permission-denied. *)
Inductive feedback_error :=
| Thrown (t : thrown)
| PermissionDenied (message : string).

(** [userData?.wardInfo?.wardNumber] *)
Definition ward_of_user (userData : fields) : jsval :=
  opt_prop (assoc "wardInfo" userData) "wardNumber".

(** [userWard && projectWard && userWard !== projectWard] *)
Definition wards_differ (userWard projectWard : jsval) : bool :=
  truthy userWard && truthy projectWard && negb (strict_eq userWard projectWard).

(** The [try] block of the callable [submitFeedback]: both documents
    are read, the wards compared, and the feedback document built.
    The document keeps the project id as it was sent.  Firestore
    takes no [undefined] for a field value. *)
Definition feedback_of (s : Store) (userId : string) (data : jsval)
    : feedback_error + fields :=
  if negb (firestore_up (base s)) then inl (Thrown ThrowOther)
  else
    match get_document (users s) userId with
    | LookupThrows => inl (Thrown ThrowOther)
    | NoSuchDocument => inl (Thrown (ThrowHttps NotFound "User not found"))
    | Found _ userData =>
        match opt_prop data "projectId" with
        | JStr projectId =>
            match get_document (projects (base s)) projectId with
            | LookupThrows => inl (Thrown ThrowOther)
            | NoSuchDocument =>
                inl (Thrown (ThrowHttps NotFound "Project not found"))
            | Found _ projectData =>
                if wards_differ (ward_of_user userData)
                                (assoc "wardNumber" projectData)
                then inl (PermissionDenied
                       "You can only provide feedback for projects in your ward")
                else if is_undefined (opt_prop data "comment")
                        || is_undefined (opt_prop data "rating")
                then inl (Thrown ThrowOther)
                else inr [("comment", opt_prop data "comment");
                          ("photoURL", or_else (opt_prop data "photoURL") JNull);
                          ("rating", opt_prop data "rating");
                          ("timestamp", serverTimestamp s);
                          ("projectId", JStr projectId);
                          ("userId", JStr userId)]
            end
        | _ => inl (Thrown ThrowOther)
        end
    end.

(** The callable [submitFeedback] of index.ts: whatever the [try]
    block throws, the [catch] throws internal in its place. *)
Definition submitFeedback (s : Store) (auth : option string)
    (assigned : option string) (data : jsval) : Store * reply :=
  match auth with
  | None => (s, CallThrew Unauthenticated "User must be authenticated")
  | Some userId =>
      match prop data "projectId" with
      | None => (s, CallCrashed)
      | Some _ =>
          match feedback_of s userId data, assigned with
          | inr feedbackData, Some id =>
              (with_feedback s (<[id := feedbackData]> (userFeedback s)),
               CallReturned (JObj [("success", JBool true); ("feedbackId", JStr id)]))
          | _, _ => (s, CallThrew Internal "Failed to submit feedback")
          end
      end
  end.

(** ** Bookkeeping of process handles *)

(** Every child process, alive or signalled, carries a handle of its
    own that was issued before the next one to be issued. *)
Definition orderly (w : World) : Prop :=
  (forall p, In p (running w ++ killed w) -> (handle p < next_handle w)%nat)
  /\ NoDup (List.map handle (running w))
  /\ NoDup (List.map handle (killed w))
  /\ (forall p q, In p (running w) -> In q (killed w) -> handle p <> handle q).

(** The callable invoked [n] times in a row with the same data. *)
Fixpoint repeat_call (n : nat) (data : jsval) : list event :=
  match n with
  | O => []
  | S n' => CallTrigger true data :: repeat_call n' data
  end.

(** A reply that is an HTTP response with the given status. *)
Definition has_status (status : Z) (r : reply) : Prop :=
  match r with
  | HttpResponse _ s _ => s = status
  | _ => False
  end.

(** The projects collection after the writes of a schedule, whoever
    made them. *)
Fixpoint written (db : gmap string fields) (es : list event)
    : gmap string fields :=
  match es with
  | [] => db
  | ProjectWrite projectId (Some doc) :: rest =>
      written (<[projectId := doc]> db) rest
  | ProjectWrite projectId None :: rest => written (delete projectId db) rest
  | _ :: rest => written db rest
  end.

(** What a handler may do to the stores: the projects collection
    and the reachability of Firestore stay as they are, the clock does
    not run backwards, and the log only grows, by failed runs. *)
Definition carries_on (w w' : World) : Prop :=
  projects w' = projects w
  /\ firestore_up w' = firestore_up w
  /\ clock w <= clock w'
  /\ exists more, logs w' = logs w ++ more
                  /\ List.Forall (fun e => log_status e = "failed"%string) more.

(** * Properties of the entry points *)

(** ** Resolving document paths *)

Lemma split_slash_one_segment id : has_slash id = false -> split_slash id = [id].
Proof.
  induction id as [|c rest IH]; cbn [has_slash split_slash]; [reflexivity|].
  intros H. apply orb_false_iff in H as [Hc Hrest].
  unfold is_slash. rewrite Hc. now rewrite (IH Hrest).
Qed.

Lemma no_slash_no_double_slash id : has_slash id = false -> has_double_slash id = false.
Proof.
  induction id as [|a rest IH]; [reflexivity|].
  cbn [has_slash]. intros H. apply orb_false_iff in H as [Ha Hrest].
  destruct rest as [|b rest']; [reflexivity|].
  change (has_double_slash (String a (String b rest')))
    with ((is_slash a && is_slash b) || has_double_slash (String b rest')).
  unfold is_slash at 1. rewrite Ha. cbn [andb orb]. now apply IH.
Qed.

(** An id that Firestore keeps documents under is its own path. *)
Lemma get_document_valid_id collection id :
  valid_document_id id = true ->
  get_document collection id
  = match collection !! id with
    | Some data => Found id data
    | None => NoSuchDocument
    end.
Proof.
  unfold valid_document_id. intros H.
  repeat (apply andb_true_iff in H as [H ?]).
  apply negb_true_iff in H.
  assert (Hslash : has_slash id = false) by now apply negb_true_iff.
  assert (Hsegs : segments id = [id]).
  { unfold segments. rewrite (split_slash_one_segment id Hslash).
    cbn [List.filter]. now rewrite H. }
  unfold get_document, doc.
  rewrite H, (no_slash_no_double_slash id Hslash), Hsegs.
  cbn [orb length Nat.odd Nat.even negb List.forallb].
  assert (Hok : acceptable_segment id = true).
  { unfold acceptable_segment. repeat (apply andb_true_iff; split); assumption. }
  rewrite Hok. reflexivity.
Qed.

(** The document a path leads to is the one kept under the only
    segment of the path. *)
Lemma get_document_found collection path id data :
  get_document collection path = Found id data ->
  segments path = [id] /\ collection !! id = Some data.
Proof.
  unfold get_document, doc.
  destruct (String.eqb path "" || has_double_slash path); [discriminate|].
  destruct (Nat.odd (length (segments path))); [|discriminate].
  destruct (negb (List.forallb acceptable_segment (segments path))); [discriminate|].
  destruct (segments path) as [|first [|second more]]; try discriminate.
  destruct (collection !! first) as [found|] eqn:E; [|discriminate].
  intros [= <- <-]. auto.
Qed.

(** The client strips the slashes around an id: [p1/] leads to the
    document [p1]. *)
Lemma trailing_slash_is_stripped data :
  get_document {[ "p1"%string := data ]} "p1/" = Found "p1" data
  /\ get_document {[ "p1"%string := data ]} "p1//" = LookupThrows
  /\ get_document {[ "p1"%string := data ]} "p1/x" = LookupThrows
  /\ get_document {[ "p1"%string := data ]} "p1/x/y" = NoSuchDocument.
Proof. repeat split; reflexivity. Qed.

(** On a store whose documents are all kept under ids that Firestore
    accepts, reading a project is resolving its path. *)
Lemma read_project_is_get_document w path :
  (forall id data, projects w !! id = Some data -> valid_document_id id = true) ->
  read_project w path = get_document (projects w) path.
Proof.
  intros Hkeys. unfold read_project.
  destruct (projects w !! path) as [data|] eqn:E; [|reflexivity].
  rewrite (get_document_valid_id _ path (Hkeys path data E)). now rewrite E.
Qed.

(** A manual call for [p1/] starts a run for the project [p1], under
    the id as it was sent. *)
Lemma slashed_id_starts_a_run :
  step plain_runtime (boot {[ "p1"%string := road_project ]})
       (CallTrigger true (call_for "p1/"))
  = (spawn (boot {[ "p1"%string := road_project ]}) (WCall "p1/"), []).
Proof. reflexivity. Qed.

(** ** Bookkeeping lemmas *)

Lemma resume_trigger_frame w projectId r :
  let w' := fst (resume_trigger w projectId r) in
  clock w' = clock w /\ firestore_up w' = firestore_up w
  /\ running w' = running w /\ next_handle w' = next_handle w
  /\ exists more, logs w' = logs w ++ more.
Proof.
  destruct r as [|message]; simpl.
  - repeat split; try reflexivity. exists []. now rewrite app_nil_r.
  - destruct (firestore_up w) eqn:Hup; simpl; repeat split; auto.
    + now exists [Log projectId message (clock w) "failed"].
    + exists []. now rewrite app_nil_r.
Qed.

Lemma resume_call_frame w projectId r : fst (resume_call w projectId r) = w.
Proof. now destruct r. Qed.

Lemma fire_frame w p :
  let w' := fst (fire w p) in
  clock w' = clock w /\ firestore_up w' = firestore_up w
  /\ running w' = running w /\ next_handle w' = next_handle w
  /\ exists more, logs w' = logs w ++ more.
Proof.
  unfold fire. destruct (awaited_by p) as [projectId|projectId|request].
  - apply resume_trigger_frame.
  - rewrite resume_call_frame. repeat split; auto. exists []. now rewrite app_nil_r.
  - simpl. repeat split; auto. exists []. now rewrite app_nil_r.
Qed.

Lemma fire_all_frame ps : forall w,
  let w' := fst (fire_all w ps) in
  clock w' = clock w /\ firestore_up w' = firestore_up w
  /\ running w' = running w /\ next_handle w' = next_handle w
  /\ exists more, logs w' = logs w ++ more.
Proof.
  induction ps as [|p rest IH]; intros w; simpl.
  - repeat split; auto. exists []. now rewrite app_nil_r.
  - destruct (fire w p) as [w1 r1] eqn:Hf.
    destruct (fire_all w1 rest) as [w2 r2] eqn:Hr. simpl.
    pose proof (fire_frame w p) as Hw1. rewrite Hf in Hw1. simpl in Hw1.
    pose proof (IH w1) as Hw2. rewrite Hr in Hw2. simpl in Hw2.
    destruct Hw1 as (c1 & u1 & r1' & n1 & m1 & l1).
    destruct Hw2 as (c2 & u2 & r2' & n2 & m2 & l2).
    repeat split; try congruence.
    exists (m1 ++ m2). rewrite l2, l1. now rewrite app_assoc.
Qed.

Lemma fire_all_killed ps : forall w, killed (fst (fire_all w ps)) = killed w.
Proof.
  induction ps as [|p rest IH]; intros w; simpl; [reflexivity|].
  destruct (fire w p) as [w1 r1] eqn:Hf.
  destruct (fire_all w1 rest) as [w2 r2] eqn:Hr. simpl.
  specialize (IH w1). rewrite Hr in IH. simpl in IH. rewrite IH.
  unfold fire in Hf. destruct (awaited_by p) as [id|id|request].
  - destruct (resume_trigger w id (Rejected timeout_message)) as [w' r'] eqn:E.
    injection Hf as <- _. unfold resume_trigger in E.
    destruct (firestore_up w); injection E as <- _; reflexivity.
  - rewrite (surjective_pairing (resume_call w id (Rejected timeout_message))) in Hf.
    rewrite resume_call_frame in Hf. now injection Hf as <- _.
  - now injection Hf as <- _.
Qed.

Lemma fire_reply w p : snd (fire w p) = [timeout_reply w p].
Proof.
  unfold fire, timeout_reply.
  destruct (awaited_by p); simpl; auto. now destruct (firestore_up w).
Qed.

Lemma fire_all_replies ps : forall w p,
  In p ps -> In (timeout_reply w p) (snd (fire_all w ps)).
Proof.
  induction ps as [|q rest IH]; intros w p Hin; [destruct Hin|].
  simpl. destruct (fire w q) as [w1 r1] eqn:Hf.
  destruct (fire_all w1 rest) as [w2 r2] eqn:Hr. simpl.
  apply in_or_app. destruct Hin as [->|Hin].
  - left. pose proof (fire_reply w p) as E. rewrite Hf in E. simpl in E.
    rewrite E. now left.
  - right. pose proof (IH w1 p Hin) as E. rewrite Hr in E. simpl in E.
    pose proof (fire_frame w q) as F. rewrite Hf in F. simpl in F.
    destruct F as (_ & Hup & _).
    unfold timeout_reply in *. now rewrite <- Hup.
Qed.

Lemma fire_all_logs ps : forall w p projectId,
  In p ps -> awaited_by p = WTrigger projectId -> firestore_up w = true ->
  In (Log projectId timeout_message (clock w) "failed") (logs (fst (fire_all w ps))).
Proof.
  induction ps as [|q rest IH]; intros w p projectId Hin Hk Hup; [destruct Hin|].
  simpl. destruct (fire w q) as [w1 r1] eqn:Hf.
  destruct (fire_all w1 rest) as [w2 r2] eqn:Hr. simpl.
  pose proof (fire_frame w q) as F. rewrite Hf in F. simpl in F.
  destruct F as (Hc & Hu & _ & _ & m & Hl).
  pose proof (fire_all_frame rest w1) as G. rewrite Hr in G. simpl in G.
  destruct G as (_ & _ & _ & _ & m' & Hl').
  destruct Hin as [->|Hin].
  - rewrite Hl'. apply in_or_app. left.
    unfold fire in Hf. rewrite Hk in Hf. simpl in Hf. rewrite Hup in Hf.
    injection Hf as <- _. simpl. apply in_or_app. right. now left.
  - pose proof (IH w1 p projectId Hin Hk) as E. rewrite Hr in E. simpl in E.
    rewrite <- Hc. apply E. congruence.
Qed.

Lemma deadline_after_start p : started p < deadline p.
Proof.
  unfold deadline, timeout_of, analysis_timeout_ms, route_timeout_ms.
  destruct (awaited_by p); lia.
Qed.

Lemma timely_spawn w k : timely w -> timely (spawn w k).
Proof.
  intros Hw p Hin. simpl in *. apply in_app_or in Hin as [Hin|[<-|[]]].
  - now apply Hw.
  - apply (deadline_after_start (Proc (next_handle w) k (clock w))).
Qed.

Lemma timely_reap w h : timely w -> timely (reap h w).
Proof.
  intros Hw p Hin. simpl in *. apply filter_In in Hin as [Hin _]. now apply Hw.
Qed.

Lemma timely_frame w w' :
  clock w' = clock w -> running w' = running w -> timely w -> timely w'.
Proof. intros Hc Hr Hw p Hin. rewrite Hc. apply Hw. now rewrite <- Hr. Qed.

Lemma timely_resume_trigger w projectId r :
  timely w -> timely (fst (resume_trigger w projectId r)).
Proof.
  intros Hw. destruct (resume_trigger_frame w projectId r) as (Hc & _ & Hr & _).
  now apply (timely_frame w).
Qed.

Lemma timely_crash_server w : timely w -> timely (crash_server w).
Proof.
  intros Hw p Hin. simpl in *. apply filter_In in Hin as [Hin _]. now apply Hw.
Qed.

Lemma timely_late_close w h : timely w -> timely (fst (late_close w h)).
Proof.
  intros Hw. unfold late_close. destruct (find_killed h w) as [p|]; [|exact Hw].
  destruct (awaited_by p); cbv beta iota; [exact Hw..|].
  apply timely_crash_server. exact Hw.
Qed.

Lemma timely_write_project w projectId after :
  timely w -> timely (write_project w projectId after).
Proof. intros Hw p Hin. apply Hw. exact Hin. Qed.

Lemma timely_satelliteInspector w projectId before after :
  timely w -> timely (fst (satelliteInspector w projectId before after)).
Proof.
  intros Hw. unfold satelliteInspector.
  repeat match goal with |- context [if ?c then _ else _] => destruct c end;
    simpl; auto using timely_spawn.
Qed.

Lemma timely_advance w dt : timely (fst (advance w dt)).
Proof.
  unfold advance. set (now := clock w + Z.max 0 dt).
  set (w0 := set_killed _ _).
  destruct (fire_all_frame (List.filter (due now) (running w)) w0)
    as (Hc & _ & Hr & _).
  intros p Hin. rewrite Hr in Hin. rewrite Hc. simpl in *.
  apply filter_In in Hin as [_ Hnd]. unfold due in Hnd.
  apply negb_true_iff, Z.leb_gt in Hnd. exact Hnd.
Qed.

Lemma timely_step rt w e : timely w -> timely (fst (step rt w e)).
Proof.
  intros Hw. destruct e; simpl.
  - now apply timely_satelliteInspector.
  - destruct (projects w !! docId) as [doc|] eqn:Hdoc; [|destruct after];
      auto using timely_satelliteInspector, timely_write_project.
  - unfold triggerSatelliteAnalysis.
    destruct (negb auth); simpl; auto.
    destruct (prop data "projectId") as [v|]; simpl; auto.
    destruct (negb (truthy v)); simpl; auto.
    destruct (load_project w v) as [t|[id fs]]; simpl; auto using timely_spawn.
  - exact Hw.
  - unfold postTriggerSatelliteAnalysis.
    match goal with |- context [if ?c then _ else _] => destruct c end; exact Hw.
  - exact Hw.
  - unfold postAnalyzeSatellite.
    match goal with |- context [if ?c then _ else _] => destruct c end;
      simpl; auto using timely_spawn.
  - unfold proc_close.
    destruct (find_proc h w) as [p|]; [|now apply timely_late_close].
    destruct (awaited_by p); cbv beta iota.
    + apply timely_resume_trigger, timely_reap, Hw.
    + rewrite resume_call_frame. apply timely_reap, Hw.
    + apply timely_reap, Hw.
  - unfold proc_error.
    destruct (find_proc h w) as [p|]; [|now apply timely_late_close].
    destruct (awaited_by p); cbv beta iota.
    + apply timely_resume_trigger, timely_reap, Hw.
    + rewrite resume_call_frame. apply timely_reap, Hw.
    + apply timely_crash_server, timely_reap, Hw.
  - apply timely_advance.
Qed.

(** From a fresh deployment, whatever the schedule, no process that
    is still awaited is at or past its deadline. *)
Lemma timely_run rt es : forall w, timely w -> timely (fst (run rt w es)).
Proof.
  induction es as [|e rest IH]; intros w Hw; simpl; auto.
  destruct (step rt w e) as [w1 r1] eqn:Hs.
  destruct (run rt w1 rest) as [w2 r2] eqn:Hr. simpl.
  specialize (IH w1). rewrite Hr in IH. apply IH.
  pose proof (timely_step rt w e Hw) as H1. now rewrite Hs in H1.
Qed.

Lemma timely_boot db : timely (boot db).
Proof. intros p []. Qed.

(** ** Concurrent triggers *)

Lemma active_runs_spawn_call w projectId :
  active_runs projectId (runSatelliteAnalysis w (WCall projectId))
  = S (active_runs projectId w).
Proof.
  unfold active_runs, runSatelliteAnalysis, spawn. cbn [running].
  rewrite List.filter_app, length_app.
  cbn [List.filter runs_for awaited_by]. rewrite String.eqb_refl.
  cbn [length]. lia.
Qed.

(** The callable admits a run whenever the project exists, however
    many runs for that project are already in flight. *)
Lemma manual_trigger_always_admits w projectId projectData :
  firestore_up w = true -> projects w !! projectId = Some projectData ->
  projectId <> ""%string ->
  triggerSatelliteAnalysis w true (call_for projectId)
  = (runSatelliteAnalysis w (WCall projectId), []).
Proof.
  intros Hup Hdoc Hne. unfold triggerSatelliteAnalysis, call_for.
  cbn [negb prop assoc]. rewrite String.eqb_refl.
  apply String.eqb_neq in Hne. cbn [truthy]. rewrite Hne. cbn [negb].
  unfold load_project, read_project. rewrite Hup.
  rewrite Hdoc. reflexivity.
Qed.

(** C2: a Firestore write for a project and a manual call for the
    same project, the second arriving while the first run is still in
    flight, leave two analysis processes alive for that project, and
    neither caller is turned away. *)
Theorem concurrent_triggers_start_two_runs :
  let '(w, replies) :=
    run plain_runtime (boot {[ "p1"%string := road_project ]})
        [FirestoreWrite "p1" None (Some road_project);
         CallTrigger true (call_for "p1")] in
  active_runs "p1" w = 2%nat
  /\ running w = [Proc 0 (WTrigger "p1") 0; Proc 1 (WCall "p1") 0]
  /\ replies = [].
Proof. vm_compute. repeat split; reflexivity. Qed.

(** ** Projects without a usable location *)

(** C6, as the code has it: a write whose document lacks a geoPoint, or
    whose latitude or longitude is absent or falsy, is skipped by the
    Firestore trigger: the world is left as it was (no process, no log
    entry) and the handler returns null. *)
Theorem inspector_skips_missing_geoPoint rt w projectId before after :
  missing_geoPoint (snap_data after) = true ->
  step rt w (FirestoreWrite projectId before after) = (w, [TriggerReturned projectId]).
Proof.
  intros Hmiss. simpl. unfold satelliteInspector. rewrite Hmiss.
  destruct (negb (isNewDocument before) && negb (isStatusUpdate before after));
    [reflexivity|].
  now destruct (negb (truthy (snap_data after))).
Qed.

Lemma inspector_skips_missing_geoPoint_witness :
  missing_geoPoint (snap_data (Some unlocated_project)) = true
  /\ step plain_runtime (boot ∅) (FirestoreWrite "p7" None (Some unlocated_project))
     = (boot ∅, [TriggerReturned "p7"]).
Proof.
  split; [reflexivity|].
  apply inspector_skips_missing_geoPoint. reflexivity.
Defined.

(** C6 fails as stated: a new project at latitude 95, longitude 200 is
    not analyzable, yet the Firestore trigger starts an analysis for it. *)
Lemma inspector_runs_out_of_bounds_project :
  spec_analyzable (JObj stray_project) = false
  /\ (let '(w, replies) :=
        step plain_runtime (boot ∅) (FirestoreWrite "p9" None (Some stray_project)) in
      spawned (boot ∅) w = 1%nat
      /\ running w = [Proc 0 (WTrigger "p9") 0]
      /\ replies = []).
Proof. vm_compute. repeat split; reflexivity. Qed.

(** The manual path has no location check at all. *)
Lemma manual_trigger_ignores_location :
  let '(w, replies) :=
    step plain_runtime (boot {[ "p7"%string := unlocated_project ]})
         (CallTrigger true (call_for "p7")) in
  running w = [Proc 0 (WCall "p7") 0] /\ replies = [].
Proof. vm_compute. split; reflexivity. Qed.

(** ** Timeouts *)

(** C7, as the code has it: when the clock reaches the deadline of a
    process that is still awaited (ten minutes after its start under
    the Cloud Functions, five under the Express route), the process
    is sent the kill signal and is awaited no longer, and its waiter is
    failed: the trigger writes a failed run to the log and returns
    null when Firestore takes the write and rejects when it does not,
    the callable throws an internal error, the route answers 408.
    Afterwards no process that is still awaited is at or past its
    deadline.  Whether the signalled process has ended is not the
    handler's to say: its ['close'] is an event yet to come. *)
Theorem timeout_fails_the_run w dt p :
  In p (running w) -> deadline p <= clock w + Z.max 0 dt ->
  let w' := fst (advance w dt) in
  let replies := snd (advance w dt) in
  deadline p = started p + match awaited_by p with
                           | WTrigger _ | WCall _ => 600000
                           | WHttp _ => 300000
                           end
  /\ ~ In p (running w') /\ In p (killed w')
  /\ (forall q, In q (running w') -> clock w' < deadline q)
  /\ match awaited_by p with
     | WTrigger projectId =>
         if firestore_up w
         then In (TriggerReturned projectId) replies
              /\ In (Log projectId timeout_message (clock w') "failed") (logs w')
         else In (TriggerRejected projectId) replies
     | WCall _ =>
         In (CallThrew Internal "Failed to trigger satellite analysis") replies
     | WHttp request =>
         In (HttpResponse request 408 (error_body "Analysis timeout")) replies
     end.
Proof.
  intros Hin Hdue. cbv zeta.
  split; [unfold deadline, timeout_of; now destruct (awaited_by p)|].
  pose proof (timely_advance w dt) as Htimely.
  unfold advance in *. set (now := clock w + Z.max 0 dt) in *.
  set (alive := List.filter (fun q => negb (due now q)) (running w)) in *.
  set (expired := List.filter (due now) (running w)) in *.
  set (w0 := set_killed (set_running (set_clock w now) alive)
                        (killed w ++ expired)) in *.
  assert (Hexp : In p expired).
  { apply filter_In. split; [exact Hin|]. unfold due. now apply Z.leb_le. }
  destruct (fire_all_frame expired w0) as (Hc & _ & Hr & _ & _).
  pose proof (fire_all_replies expired w0 p Hexp) as Hreply.
  unfold timeout_reply in Hreply.
  repeat split.
  - rewrite Hr. simpl. intros Habs. apply filter_In in Habs as [_ Hnd].
    unfold due in Hnd. apply negb_true_iff, Z.leb_gt in Hnd. lia.
  - rewrite fire_all_killed. simpl. apply in_or_app. now right.
  - exact Htimely.
  - destruct (awaited_by p) as [id|id|request] eqn:Hk; try exact Hreply.
    change (firestore_up w0) with (firestore_up w) in Hreply.
    destruct (firestore_up w) eqn:Hup; [|exact Hreply].
    split; [exact Hreply|]. rewrite Hc.
    now apply (fire_all_logs expired w0 p id).
Qed.

Lemma timeout_fails_the_run_witness :
  let w := fst (step plain_runtime (boot ∅)
                     (FirestoreWrite "p1" None (Some road_project))) in
  In (TriggerReturned "p1") (snd (advance w 600000))
  /\ In (Log "p1" timeout_message 600000 "failed") (logs (fst (advance w 600000))).
Proof.
  cbv zeta.
  set (w := fst (step plain_runtime (boot ∅)
                      (FirestoreWrite "p1" None (Some road_project)))).
  assert (Hin : In (Proc 0 (WTrigger "p1") 0) (running w)) by (now left).
  assert (Hdue : deadline (Proc 0 (WTrigger "p1") 0) <= clock w + Z.max 0 600000)
    by (vm_compute; discriminate).
  destruct (timeout_fails_the_run w 600000 _ Hin Hdue) as (_ & _ & _ & _ & Hr).
  exact Hr.
Defined.

(** C7 fails as stated: a run of the [/analyze-satellite] route that
    has not finished is killed and answered 408 after five minutes,
    well before ten. *)
Lemma route_times_out_after_five_minutes :
  let '(w, replies) :=
    run plain_runtime (boot ∅)
        [PostAnalyze 7 [("projectId", JStr "p1"); ("latitude", num 12);
                        ("longitude", num 77)];
         Advance 300000] in
  clock w = 300000 /\ clock w < analysis_timeout_ms
  /\ running w = []
  /\ replies = [HttpResponse 7 408 (error_body "Analysis timeout")].
Proof. vm_compute. repeat split; reflexivity. Qed.

(** ** Failures of the analysis process *)

Lemma on_close_failure code stderr :
  code <> Some 0 ->
  on_close code stderr
  = Rejected ("Python script failed with code " +:+ code_string code
              +:+ ": " +:+ stderr).
Proof.
  intros Hne. unfold on_close. destruct code as [[|c|c]|]; auto. congruence.
Qed.

(** The [catch] block of [satelliteInspector] is where a failed
    process ends up, whether it exited with a code other than 0 or
    could not be started.  Nothing is spawned in its place. *)
Lemma failed_process_reaches_catch rt w h p projectId :
  find_proc h w = Some p -> awaited_by p = WTrigger projectId ->
  (forall code stdout stderr, code <> Some 0 ->
     step rt w (ProcClose h code stdout stderr)
     = resume_trigger (reap h w) projectId
         (Rejected ("Python script failed with code " +:+ code_string code
                    +:+ ": " +:+ stderr)))
  /\ (forall message,
        step rt w (ProcError h message)
        = resume_trigger (reap h w) projectId (Rejected message)).
Proof.
  intros Hfind Hk. split.
  - intros code stdout stderr Hne. cbn [step]. unfold proc_close.
    rewrite Hfind, Hk. now rewrite (on_close_failure code stderr Hne).
  - intros message. cbn [step]. unfold proc_error. now rewrite Hfind, Hk.
Qed.

(** The JavaScript side runs the process of a run once: after a
    failure one process has been spawned in all, and the log holds
    one failed run. *)
Lemma single_attempt_then_failed :
  let '(w, replies) :=
    run plain_runtime (boot ∅)
        [FirestoreWrite "p1" None (Some road_project);
         ProcClose 0 (Some 1) "" "catalog unreachable"] in
  spawned (boot ∅) w = 1%nat
  /\ running w = []
  /\ logs w = [Log "p1" "Python script failed with code 1: catalog unreachable"
                   0 "failed"]
  /\ replies = [TriggerReturned "p1"].
Proof. vm_compute. repeat split; reflexivity. Qed.

(** The [catch] block of the trigger writes its log document with
    no guard of its own: when Firestore does not take the write, a
    failed run is logged nowhere and the handler rejects with the
    error of the write, whatever made the process fail. *)
Theorem failed_run_escapes_the_handler rt w h p projectId :
  find_proc h w = Some p -> awaited_by p = WTrigger projectId ->
  firestore_up w = false ->
  (forall code stdout stderr, code <> Some 0 ->
     step rt w (ProcClose h code stdout stderr)
     = (reap h w, [TriggerRejected projectId]))
  /\ (forall message,
        step rt w (ProcError h message) = (reap h w, [TriggerRejected projectId]))
  /\ logs (reap h w) = logs w.
Proof.
  intros Hfind Hk Hup.
  destruct (failed_process_reaches_catch rt w h p projectId Hfind Hk)
    as [Hclose Herror].
  split; [|split; [|reflexivity]].
  - intros code stdout stderr Hne. rewrite (Hclose code stdout stderr Hne).
    unfold resume_trigger. cbn [firestore_up reap set_running]. now rewrite Hup.
  - intros message. rewrite (Herror message).
    unfold resume_trigger. cbn [firestore_up reap set_running]. now rewrite Hup.
Qed.

Lemma failed_run_escapes_the_handler_witness :
  let w := outage (fst (step plain_runtime (boot ∅)
                             (FirestoreWrite "p1" None (Some road_project)))) in
  step plain_runtime w (ProcClose 0 (Some 1) "" "catalog unreachable")
  = (reap 0 w, [TriggerRejected "p1"])
  /\ logs (reap 0 w) = [].
Proof.
  cbv zeta.
  set (w := outage (fst (step plain_runtime (boot ∅)
                              (FirestoreWrite "p1" None (Some road_project))))).
  assert (Hf : find_proc 0 w = Some (Proc 0 (WTrigger "p1") 0)) by reflexivity.
  destruct (failed_run_escapes_the_handler plain_runtime w 0%nat _ "p1"%string
              Hf eq_refl eq_refl) as (Hclose & _ & Hlogs).
  split; [|exact Hlogs].
  apply Hclose. discriminate.
Defined.

(** A process that cannot be started brings the server of
    [/analyze-satellite] down: the route registers no ['error']
    listener. *)
Lemma spawn_error_crashes_the_server :
  snd (run plain_runtime (boot ∅)
         [PostAnalyze 7 [("projectId", JStr "p1"); ("latitude", num 12);
                         ("longitude", num 77)];
          ProcError 0 "spawn python ENOENT"])
  = [ServerCrashed].
Proof. reflexivity. Qed.

(** A server that went down with an exception fires no timer: the
    second request, still awaited when the first one's process closed
    late, is never answered 408. *)
Lemma crashed_server_fires_no_timer :
  let body := [("projectId", JStr "p1"); ("latitude", num 12);
               ("longitude", num 77)] in
  let '(w, replies) :=
    run plain_runtime (boot ∅)
        [PostAnalyze 1 body; Advance 299999; PostAnalyze 2 body; Advance 1;
         ProcClose 0 None "" ""; Advance 299999] in
  replies = [HttpResponse 1 408 (error_body "Analysis timeout"); ServerCrashed]
  /\ running w = [] /\ killed w = [].
Proof. vm_compute. repeat split; reflexivity. Qed.

(** ** Absent projects *)

(** Both callables raise not-found inside their own [try] block, whose
    [catch] replaces whatever was thrown. *)
Lemma absent_project_reported_internal w projectId :
  firestore_up w = true -> projects w !! projectId = None ->
  valid_document_id projectId = true ->
  load_project w (JStr projectId) = inl (ThrowHttps NotFound "Project not found")
  /\ getSatelliteAnalysis w true (call_for projectId)
     = CallThrew Internal "Failed to get satellite analysis"
  /\ triggerSatelliteAnalysis w true (call_for projectId)
     = (w, [CallThrew Internal "Failed to trigger satellite analysis"]).
Proof.
  intros Hup Hdoc Hid.
  assert (Hne : String.eqb projectId "" = false).
  { unfold valid_document_id in Hid.
    repeat (apply andb_true_iff in Hid as [Hid ?]). now apply negb_true_iff. }
  assert (Hl : load_project w (JStr projectId)
               = inl (ThrowHttps NotFound "Project not found")).
  { unfold load_project, read_project. rewrite Hup, Hdoc.
    now rewrite (get_document_valid_id _ projectId Hid), Hdoc. }
  split; [exact Hl|].
  unfold getSatelliteAnalysis, triggerSatelliteAnalysis, call_for.
  cbn [negb prop assoc]. rewrite String.eqb_refl. cbn [truthy].
  rewrite Hne. cbn [negb]. now rewrite Hl.
Qed.

(** C9: for a project id with no document, the lookup raises
    not-found, but what reaches the caller of either callable is an
    error with code internal. *)
Theorem absent_project_is_not_reported_as_not_found :
  load_project (boot ∅) (JStr "ghost")
  = inl (ThrowHttps NotFound "Project not found")
  /\ getSatelliteAnalysis (boot ∅) true (call_for "ghost")
     = CallThrew Internal "Failed to get satellite analysis"
  /\ step plain_runtime (boot ∅) (CallTrigger true (call_for "ghost"))
     = (boot ∅, [CallThrew Internal "Failed to trigger satellite analysis"]).
Proof. vm_compute. repeat split; reflexivity. Qed.

(** A stored project without an analysis is answered, not failed. *)
Lemma no_analysis_is_answered w projectId projectData :
  firestore_up w = true -> projects w !! projectId = Some projectData ->
  projectId <> ""%string ->
  truthy (assoc "satelliteAnalysis" projectData) = false ->
  getSatelliteAnalysis w true (call_for projectId)
  = CallReturned (JObj [("success", JBool false);
      ("message", JStr "No satellite analysis available for this project")]).
Proof.
  intros Hup Hdoc Hne Hnone. apply String.eqb_neq in Hne.
  unfold getSatelliteAnalysis, call_for.
  cbn [negb prop assoc]. rewrite String.eqb_refl. cbn [truthy].
  rewrite Hne. cbn [negb]. unfold load_project, read_project. rewrite Hup, Hdoc.
  cbn [truthy negb]. now rewrite Hnone.
Qed.

(** ** The Express binding *)

(** C10: a POST with a truthy projectId and projectData is answered
    success with status processing and leaves the world untouched, so
    nothing is started; a GET is answered completed with the same
    fixed results for any analysis id, computed from the clock alone. *)
Theorem express_binding_is_a_mock rt w request body analysisId :
  truthy (assoc "projectId" body) = true ->
  truthy (assoc "projectData" body) = true ->
  step rt w (PostTrigger request body)
  = (w, [HttpResponse request 200 (JObj [
           ("success", JBool true);
           ("message", JStr "Satellite analysis triggered");
           ("analysisId", JStr ("analysis_" +:+ pretty (clock w)));
           ("status", JStr "processing")])])
  /\ spawned w (fst (step rt w (PostTrigger request body))) = 0%nat
  /\ step rt w (GetAnalysis request analysisId)
     = (w, [HttpResponse request 200 (JObj [
              ("analysisId", JStr analysisId);
              ("status", JStr "completed");
              ("results", JObj [
                 ("ndbiChange", dec (15 # 100));
                 ("structureDetected", JBool true);
                 ("progressPercentage", num 75);
                 ("redFlags", JArr []);
                 ("confidence", dec (85 # 100));
                 ("lastUpdated", JStr (toISOString rt (clock w)))])])]).
Proof.
  intros Hid Hdata.
  assert (E : step rt w (PostTrigger request body)
              = (w, [HttpResponse request 200 (JObj [
                   ("success", JBool true);
                   ("message", JStr "Satellite analysis triggered");
                   ("analysisId", JStr ("analysis_" +:+ pretty (clock w)));
                   ("status", JStr "processing")])])).
  { cbn [step]. unfold postTriggerSatelliteAnalysis. now rewrite Hid, Hdata. }
  rewrite E. repeat split. unfold spawned. cbn [fst]. lia.
Qed.

Lemma express_binding_is_a_mock_witness :
  step plain_runtime (boot ∅)
       (PostTrigger 1 [("projectId", JStr "p1"); ("projectData", JObj road_project)])
  = (boot ∅, [HttpResponse 1 200 (JObj [
       ("success", JBool true);
       ("message", JStr "Satellite analysis triggered");
       ("analysisId", JStr ("analysis_" +:+ pretty (clock (boot ∅))));
       ("status", JStr "processing")])]).
Proof.
  refine (proj1 (express_binding_is_a_mock plain_runtime (boot ∅) 1%nat
                   [("projectId", JStr "p1"); ("projectData", JObj road_project)]
                   "any"%string _ _)); reflexivity.
Defined.

(** * Properties of the engine *)

Import Engine.
Local Open Scope Q_scope.

(** ** Comparisons *)

Lemma Qlt_bool_iff a b : Qlt_bool a b = true <-> a < b.
Proof.
  unfold Qlt_bool. rewrite negb_true_iff. split.
  - intros H. apply Qnot_le_lt. intros Hle.
    apply Qle_bool_iff in Hle. congruence.
  - intros H. destruct (Qle_bool b a) eqn:E; [|reflexivity].
    apply Qle_bool_iff in E. exfalso. now apply (Qlt_not_le a b).
Qed.

Lemma Qlt_bool_false a b : Qlt_bool a b = false <-> b <= a.
Proof.
  unfold Qlt_bool. rewrite negb_false_iff. apply Qle_bool_iff.
Qed.

(** ** Mismatch Evaluator *)

Lemma outsideRange_iff claimed observed :
  outsideRange claimed observed = true
  <-> ~ (fst (expectedRange claimed) <= observed
         /\ observed <= snd (expectedRange claimed)).
Proof.
  unfold outsideRange. rewrite orb_true_iff, !Qlt_bool_iff. split.
  - intros [H|H] [H1 H2]; [now apply (Qlt_not_le _ _ H)|now apply (Qlt_not_le _ _ H)].
  - intros Hn.
    destruct (Qlt_le_dec observed (fst (expectedRange claimed))) as [H|H]; [now left|].
    destruct (Qlt_le_dec (snd (expectedRange claimed)) observed) as [H'|H']; [now right|].
    exfalso. apply Hn. now split.
Qed.

(** C1: the evaluator reports a mismatch exactly when the observed
    change lies outside the range expected for the claimed status
    (Pending 0-5%, InProgress 5-50%, Completed 10-100%, Cancelled
    0-10%), grades no severity exactly when there is no mismatch, and
    on a project claimed InProgress for 8 months answers (false, none)
    at 20% and (true, high) at 2%. *)
Theorem mismatch_evaluator_policy :
  expectedRange Pending = (pct 0, pct 5)
  /\ expectedRange InProgress = (pct 5, pct 50)
  /\ expectedRange Completed = (pct 10, pct 100)
  /\ expectedRange Cancelled = (pct 0, pct 10)
  /\ (forall claimed months observed,
        fst (evaluateMismatch claimed months observed) = true
        <-> ~ (fst (expectedRange claimed) <= observed
               /\ observed <= snd (expectedRange claimed)))
  /\ (forall claimed months observed,
        snd (evaluateMismatch claimed months observed) = SevNone
        <-> fst (evaluateMismatch claimed months observed) = false)
  /\ evaluateMismatch InProgress 8 (pct 20) = (false, SevNone)
  /\ evaluateMismatch InProgress 8 (pct 2) = (true, High).
Proof.
  repeat split; try reflexivity.
  - now apply outsideRange_iff.
  - now apply outsideRange_iff.
  - simpl. unfold gradeSeverity.
    destruct (outsideRange claimed observed); [|reflexivity]. simpl.
    repeat match goal with |- context [if ?c then _ else _] => destruct c end;
      discriminate.
  - simpl. unfold gradeSeverity. now intros ->.
Qed.

(** ** Spectral Index Calculator *)

Lemma index_none_iff p : index p = None <-> shortwave p + nearInfrared p == 0.
Proof.
  unfold index. destruct (Qeq_bool _ 0) eqn:E.
  - apply Qeq_bool_iff in E. tauto.
  - split; [discriminate|]. intros H. apply Qeq_bool_iff in H. congruence.
Qed.

Lemma index_in_unit_interval p v :
  nonnegative p -> index p = Some v -> unit_interval v.
Proof.
  intros [Hs Hn] Hi. unfold index in Hi.
  destruct (Qeq_bool _ 0) eqn:E; [discriminate|]. injection Hi as <-.
  assert (Hd : 0 < shortwave p + nearInfrared p).
  { apply Qeq_bool_neq in E.
    destruct (Qlt_le_dec 0 (shortwave p + nearInfrared p)) as [H|H]; [exact H|].
    exfalso. apply E. lra. }
  split.
  - apply Qle_shift_div_l; [exact Hd|lra].
  - apply Qle_shift_div_r; [exact Hd|lra].
Qed.

Lemma indices_in_unit_interval ps :
  List.Forall nonnegative ps -> List.Forall unit_interval (indices ps).
Proof.
  induction 1 as [|p rest Hp _ IH]; simpl; [constructor|].
  destruct (index p) as [v|] eqn:E; [|exact IH].
  constructor; [now apply (index_in_unit_interval p)|exact IH].
Qed.

Lemma count_cons v l : count (v :: l) == count l + 1.
Proof.
  unfold count. cbn [length]. rewrite Nat2Z.inj_succ, <- Z.add_1_r.
  now rewrite inject_Z_plus.
Qed.

Lemma Qsum_bounds l :
  List.Forall unit_interval l -> - count l <= Qsum l /\ Qsum l <= count l.
Proof.
  induction 1 as [|v rest [Hlo Hhi] _ [IHlo IHhi]].
  - unfold count, Qsum. simpl. split; apply Qle_refl.
  - rewrite count_cons. unfold Qsum in *. cbn [List.fold_right]. split; lra.
Qed.

Lemma mean_in_unit_interval l m :
  List.Forall unit_interval l -> mean l = Some m -> unit_interval m.
Proof.
  intros Hall Hm. destruct l as [|v rest]; [discriminate|].
  unfold mean in Hm.
  destruct (Qsum_bounds _ Hall) as [Hlo Hhi].
  assert (Hpos : 0 < count (v :: rest)).
  { unfold count. change 0 with (inject_Z 0). rewrite <- Zlt_Qlt.
    cbn [length]. lia. }
  revert Hm Hlo Hhi Hpos.
  generalize (Qsum (v :: rest)) (count (v :: rest)).
  intros total n Hm Hlo Hhi Hpos. injection Hm as <-. split.
  - apply Qle_shift_div_l; [exact Hpos|lra].
  - apply Qle_shift_div_r; [exact Hpos|lra].
Qed.

Lemma indices_nil_iff ps :
  indices ps = [] <-> forall p, In p ps -> shortwave p + nearInfrared p == 0.
Proof.
  induction ps as [|q rest IH]; simpl.
  - split; [intros _ p []|reflexivity].
  - destruct (index q) as [v|] eqn:E.
    + split; [discriminate|]. intros H.
      assert (Hq : index q = None) by (apply index_none_iff, H; now left).
      congruence.
    + rewrite IH. apply index_none_iff in E. split.
      * intros H p [<-|Hin]; auto.
      * intros H p Hin. apply H. now right.
Qed.

Lemma mean_none_iff l : mean l = None <-> l = [].
Proof. destruct l; simpl; split; congruence. Qed.

Lemma validBands_forall scene :
  validBands scene = true -> List.Forall nonnegative (bands scene).
Proof.
  unfold validBands. rewrite forallb_forall, List.Forall_forall.
  intros H p Hin. specialize (H p Hin).
  apply andb_true_iff in H as [H1 H2].
  split; now apply Qle_bool_iff.
Qed.

Lemma Forall_filter_keeps {A} (P : A -> Prop) f (l : list A) :
  List.Forall P l -> List.Forall P (List.filter f l).
Proof.
  rewrite !List.Forall_forall. intros H x Hin.
  apply filter_In in Hin as [Hin _]. now apply H.
Qed.

(** C4: on a scene with valid band data and any region, the mean index
    lies between -1 and 1; it is undefined only when every in-region
    pixel has a zero denominator; and a pixel with a zero denominator
    does not enter the mean. *)
Theorem spectral_mean_within_unit_interval
    (inRegion : RegionOfInterest -> Pixel -> bool) roi scene :
  validBands scene = true ->
  (forall m, meanIndex inRegion roi scene = Some m -> -(1) <= m /\ m <= 1)
  /\ (meanIndex inRegion roi scene = None
      <-> forall p, In p (bands scene) -> inRegion roi p = true ->
                    shortwave p + nearInfrared p == 0)
  /\ (forall p, shortwave p + nearInfrared p == 0 ->
        meanIndex inRegion roi (withPixel p scene) = meanIndex inRegion roi scene).
Proof.
  intros Hvalid. split; [|split; [split|]].
  - intros m Hm. unfold meanIndex in Hm.
    apply (mean_in_unit_interval _ m) in Hm; [exact Hm|].
    now apply indices_in_unit_interval, Forall_filter_keeps, validBands_forall.
  - unfold meanIndex. rewrite mean_none_iff, indices_nil_iff.
    intros H p Hin Hreg. apply H, filter_In. now split.
  - unfold meanIndex. rewrite mean_none_iff, indices_nil_iff.
    intros H p Hin. apply filter_In in Hin as [Hin Hreg]. now apply H.
  - intros p Hzero. unfold meanIndex, withPixel. cbn [bands List.filter].
    destruct (inRegion roi p); [|reflexivity].
    cbn [indices]. apply index_none_iff in Hzero. now rewrite Hzero.
Qed.

Lemma spectral_mean_within_unit_interval_witness :
  validBands sample_scene = true
  /\ meanIndex everywhere sample_region sample_scene = Some (-2000000 # 40000000)
  /\ (-(1) <= -2000000 # 40000000 /\ -2000000 # 40000000 <= 1).
Proof.
  assert (Hv : validBands sample_scene = true) by reflexivity.
  assert (Hm : meanIndex everywhere sample_region sample_scene
               = Some (-2000000 # 40000000)) by (vm_compute; reflexivity).
  split; [exact Hv|]. split; [exact Hm|].
  exact (proj1 (spectral_mean_within_unit_interval everywhere sample_region
                  sample_scene Hv) _ Hm).
Defined.

(** ** Temporal Comparator *)

Lemma clamped_denominator_positive epsilon before :
  0 < epsilon -> 0 < Qmax (Qabs before) epsilon.
Proof.
  intros Heps. apply Qlt_le_trans with epsilon; [exact Heps|].
  apply Q.le_max_r.
Qed.

Lemma fdiv_finite a b : ~ b == 0 -> fdiv a b = Finite (a / b).
Proof.
  intros Hb. unfold fdiv. destruct (Qeq_bool b 0) eqn:E; [|reflexivity].
  apply Qeq_bool_iff in E. contradiction.
Qed.

(** Without the clamp the quotient is not a number when the earlier
    value is zero. *)
Lemma unguarded_delta_blows_up after : unguardedDelta 0 after = NotFinite.
Proof. reflexivity. Qed.

(** C5: for any pair of samples the comparator's percentage delta is a
    finite number, the quotient of the difference by the larger of
    |before| and epsilon; an estimate is always produced, and it is
    marked low-confidence exactly when |before| is below epsilon. *)
Theorem percentage_delta_is_finite epsilon start before after :
  0 < epsilon ->
  let estimate := compareSamples epsilon start before after in
  percentageDelta estimate
  = Finite ((value after - value before) / Qmax (Qabs (value before)) epsilon)
  /\ 0 < Qmax (Qabs (value before)) epsilon
  /\ (lowConfidence estimate = true <-> Qabs (value before) < epsilon).
Proof.
  intros Heps. cbv zeta. unfold compareSamples. cbn [percentageDelta lowConfidence].
  pose proof (clamped_denominator_positive epsilon (value before) Heps) as Hpos.
  split; [|split].
  - apply fdiv_finite. intros Hz. rewrite Hz in Hpos. now apply (Qlt_irrefl 0).
  - exact Hpos.
  - apply Qlt_bool_iff.
Qed.

Lemma percentage_delta_is_finite_witness :
  (0 < defaultEpsilon)
  /\ percentageDelta (compareSamples defaultEpsilon 640 flat_sample built_sample)
     = Finite ((value built_sample - value flat_sample)
               / Qmax (Qabs (value flat_sample)) defaultEpsilon)
  /\ lowConfidence (compareSamples defaultEpsilon 640 flat_sample built_sample) = true.
Proof.
  assert (Heps : 0 < defaultEpsilon) by reflexivity.
  destruct (percentage_delta_is_finite defaultEpsilon 640 flat_sample built_sample Heps)
    as (Hd & _ & Hl).
  split; [exact Heps|]. split; [exact Hd|]. apply Hl. reflexivity.
Defined.

(** ** Orchestrator *)

Section Runs.

Variable inRegion : RegionOfInterest -> Pixel -> bool.
Variables epsilon highConfidence : Q.
Variable dense : Q -> bool.
Variable advice : Severity -> list string.
Variables backoffBase backoffCap : Q.







(** ** Retries of a fetch step *)






End Runs.




(** * Further properties of the entry points *)

Local Close Scope Q_scope.

(** ** The Firestore trigger *)

(** A write that deletes the document, or that keeps the status of an
    existing document, starts no analysis: this is what stops the
    result the script writes back from triggering the next run. *)
Theorem unchanged_status_starts_nothing rt w projectId b after :
  after = None
  \/ (exists a, after = Some a
       /\ strict_eq (assoc "status" b) (assoc "status" a) = true) ->
  step rt w (FirestoreWrite projectId (Some b) after) = (w, [TriggerReturned projectId]).
Proof.
  intros [->|(a & -> & Heq)]; cbn [step]; unfold satelliteInspector.
  - reflexivity.
  - unfold isNewDocument, isStatusUpdate, snap_exists, snap_data, opt_prop, prop.
    rewrite Heq. reflexivity.
Qed.

Lemma unchanged_status_starts_nothing_witness :
  step plain_runtime (boot ∅)
       (FirestoreWrite "p1" (Some road_project)
          (Some (("satelliteAnalysis", JObj [("isMismatch", JBool false)])
                 :: road_project)))
  = (boot ∅, [TriggerReturned "p1"]).
Proof.
  apply unchanged_status_starts_nothing. right.
  eexists. split; reflexivity.
Defined.

(** A project on the equator or on the prime meridian is skipped like
    one without a location: a coordinate of 0 is falsy.  Such a point
    is within the bounds of latitude and longitude. *)
Theorem zero_coordinate_is_skipped rt w projectId before rest (lat lng : Q) :
  (lat == 0 \/ lng == 0)%Q ->
  step rt w (FirestoreWrite projectId before
               (Some (("geoPoint", geoPoint_of lat lng) :: rest)))
  = (w, [TriggerReturned projectId])
  /\ spec_analyzable (JObj (("geoPoint", geoPoint_of lat lng) :: rest))
     = Engine.validPoint {| Engine.latitude := lat; Engine.longitude := lng |}.
Proof.
  intros Hzero. split; [|reflexivity].
  cbn [step]. unfold satelliteInspector.
  assert (Hmiss : missing_geoPoint
            (snap_data (Some (("geoPoint", geoPoint_of lat lng) :: rest))) = true).
  { unfold missing_geoPoint, snap_data, opt_prop, prop, geoPoint_of, dec.
    cbn [assoc String.eqb Ascii.eqb Bool.eqb truthy negb orb].
    destruct Hzero as [H|H]; apply Qeq_bool_iff in H; rewrite H;
      cbn [negb orb]; [reflexivity|apply orb_true_r]. }
  rewrite Hmiss.
  destruct (negb (isNewDocument before) && negb (isStatusUpdate before _));
    [reflexivity|].
  now destruct (negb (truthy _)).
Qed.

Lemma zero_coordinate_is_skipped_witness :
  step plain_runtime (boot ∅)
       (FirestoreWrite "p3" None
          (Some [("geoPoint", geoPoint_of 0 (1092 # 10)); ("status", JStr "Pending")]))
  = (boot ∅, [TriggerReturned "p3"])
  /\ spec_analyzable
       (JObj [("geoPoint", geoPoint_of 0 (1092 # 10)); ("status", JStr "Pending")])
     = true.
Proof.
  destruct (zero_coordinate_is_skipped plain_runtime (boot ∅) "p3"%string None
              [("status", JStr "Pending")] 0%Q (1092 # 10)%Q) as [Hs Ha].
  - left. reflexivity.
  - split; [exact Hs|]. rewrite Ha. reflexivity.
Defined.

(** ** The callables *)

(** Authentication is checked before the payload is read: the only
    way an exception that is not an HttpsError leaves either callable
    is an authenticated call whose data is null or undefined. *)
Theorem callable_crashes_only_on_null_data rt w auth data :
  (In CallCrashed (snd (step rt w (CallTrigger auth data)))
   <-> auth = true /\ (data = JUndefined \/ data = JNull))
  /\ (In CallCrashed (snd (step rt w (CallGet auth data)))
      <-> auth = true /\ (data = JUndefined \/ data = JNull)).
Proof.
  assert (Hprop : forall v, prop v "projectId" = None <-> v = JUndefined \/ v = JNull).
  { intros v. destruct v; cbn [prop]; split; intros H;
      try discriminate; try destruct H as [H|H]; try discriminate; auto. }
  split; cbn [step snd]; split.
  - unfold triggerSatelliteAnalysis. destruct auth; cbn [negb].
    + destruct (prop data "projectId") as [v|] eqn:E.
      * destruct (negb (truthy v)); cbn [snd].
        -- intros [H|[]]; discriminate.
        -- destruct (load_project w v) as [t|[id fs]]; cbn [snd];
             [intros [H|[]]; discriminate|intros []].
      * intros _. split; [reflexivity|]. now apply Hprop.
    + cbn [snd]. intros [H|[]]; discriminate.
  - intros [-> Hd]. apply Hprop in Hd. unfold triggerSatelliteAnalysis.
    cbn [negb]. rewrite Hd. now left.
  - unfold getSatelliteAnalysis. destruct auth; cbn [negb].
    + destruct (prop data "projectId") as [v|] eqn:E.
      * destruct (negb (truthy v)).
        -- intros [H|[]]; discriminate.
        -- destruct (load_project w v) as [t|[id fs]].
           ++ intros [H|[]]; discriminate.
           ++ destruct (negb (truthy _)); intros [H|[]]; discriminate.
      * intros _. split; [reflexivity|]. now apply Hprop.
    + intros [H|[]]; discriminate.
  - intros [-> Hd]. apply Hprop in Hd. unfold getSatelliteAnalysis.
    cbn [negb]. rewrite Hd. now left.
Qed.

Lemma spawn_keeps_store w k :
  firestore_up (runSatelliteAnalysis w k) = firestore_up w
  /\ projects (runSatelliteAnalysis w k) = projects w.
Proof. split; reflexivity. Qed.

(** However many times the callable is invoked for an existing
    project while earlier runs are still in flight, every invocation
    is admitted and starts a process of its own. *)
Theorem repeated_calls_all_admitted rt n : forall w projectId projectData,
  firestore_up w = true -> projects w !! projectId = Some projectData ->
  projectId <> ""%string ->
  active_runs projectId (fst (run rt w (repeat_call n (call_for projectId))))
  = (active_runs projectId w + n)%nat
  /\ snd (run rt w (repeat_call n (call_for projectId))) = []
  /\ next_handle (fst (run rt w (repeat_call n (call_for projectId))))
     = (next_handle w + n)%nat.
Proof.
  induction n as [|n IH]; intros w projectId projectData Hup Hdoc Hne.
  - cbn [repeat_call run fst snd]. repeat split; lia.
  - cbn [repeat_call run step].
    rewrite (manual_trigger_always_admits w projectId projectData Hup Hdoc Hne).
    destruct (spawn_keeps_store w (WCall projectId)) as [Hup' Hdoc'].
    destruct (IH (runSatelliteAnalysis w (WCall projectId)) projectId projectData)
      as (Ha & Hr & Hn); try congruence.
    destruct (run rt (runSatelliteAnalysis w (WCall projectId))
                  (repeat_call n (call_for projectId))) as [w2 r2].
    cbn [fst snd] in *. rewrite Ha, Hr, Hn, active_runs_spawn_call.
    cbn [runSatelliteAnalysis spawn next_handle]. repeat split; try lia.
Qed.

Lemma repeated_calls_all_admitted_witness :
  active_runs "p1"
    (fst (run plain_runtime (boot {[ "p1"%string := road_project ]})
              (repeat_call 3 (call_for "p1")))) = 3%nat.
Proof.
  destruct (repeated_calls_all_admitted plain_runtime 3
              (boot {[ "p1"%string := road_project ]}) "p1"%string road_project)
    as (Ha & _); [reflexivity|reflexivity|discriminate|].
  exact Ha.
Defined.

(** ** What the handlers leave alone *)

Lemma carries_on_refl w : carries_on w w.
Proof.
  repeat split; try reflexivity; try lia.
  exists []. split; [now rewrite app_nil_r|constructor].
Qed.

Lemma carries_on_trans w1 w2 w3 :
  carries_on w1 w2 -> carries_on w2 w3 -> carries_on w1 w3.
Proof.
  intros (Hp & Hu & Hc & m & Hl & Hf) (Hp' & Hu' & Hc' & m' & Hl' & Hf').
  repeat split; try congruence; try lia.
  exists (m ++ m'). split.
  - rewrite Hl', Hl. now rewrite app_assoc.
  - apply List.Forall_app. now split.
Qed.

Lemma carries_on_resume_trigger w projectId r :
  carries_on w (fst (resume_trigger w projectId r)).
Proof.
  destruct r as [|message]; cbn [resume_trigger]; [apply carries_on_refl|].
  destruct (firestore_up w) eqn:Hup; cbn [fst]; [|apply carries_on_refl].
  repeat split; cbn [projects firestore_up clock logs add_log]; auto; try lia.
  eexists. split; [reflexivity|]. repeat constructor.
Qed.

Lemma carries_on_fire w p : carries_on w (fst (fire w p)).
Proof.
  unfold fire. destruct (awaited_by p).
  - apply carries_on_resume_trigger.
  - rewrite resume_call_frame. apply carries_on_refl.
  - apply carries_on_refl.
Qed.

Lemma carries_on_fire_all ps : forall w, carries_on w (fst (fire_all w ps)).
Proof.
  induction ps as [|p rest IH]; intros w; cbn [fire_all].
  - apply carries_on_refl.
  - pose proof (carries_on_fire w p) as H1.
    destruct (fire w p) as [w1 r1]. pose proof (IH w1) as H2.
    destruct (fire_all w1 rest) as [w2 r2]. cbn [fst] in *.
    now apply (carries_on_trans w w1 w2).
Qed.

Lemma carries_on_late_close w h : carries_on w (fst (late_close w h)).
Proof.
  unfold late_close. destruct (find_killed h w) as [p|]; [|apply carries_on_refl].
  destruct (awaited_by p); cbn [fst]; repeat split; cbn; auto; try lia;
    exists []; (split; [now rewrite app_nil_r|constructor]).
Qed.

Lemma carries_on_reap w h : carries_on w (reap h w).
Proof.
  repeat split; cbn; auto; try lia.
  exists []. split; [now rewrite app_nil_r|constructor].
Qed.

Lemma carries_on_spawn w k : carries_on w (spawn w k).
Proof.
  repeat split; cbn; auto; try lia.
  exists []. split; [now rewrite app_nil_r|constructor].
Qed.

Lemma carries_on_satelliteInspector w projectId before after :
  carries_on w (fst (satelliteInspector w projectId before after)).
Proof.
  unfold satelliteInspector, runSatelliteAnalysis.
  repeat match goal with |- context [if ?c then _ else _] => destruct c end;
    cbn [fst]; auto using carries_on_refl, carries_on_spawn.
Qed.

Lemma carries_on_crash_server w : carries_on w (crash_server w).
Proof.
  repeat split; cbn; auto; try lia.
  exists []. split; [now rewrite app_nil_r|constructor].
Qed.

Lemma carries_on_step rt w e :
  match e with
  | ProjectWrite _ _ => True
  | _ => carries_on w (fst (step rt w e))
  end.
Proof.
  destruct e; cbn [step].
  - apply carries_on_satelliteInspector.
  - exact I.
  - unfold triggerSatelliteAnalysis, runSatelliteAnalysis.
    destruct (negb auth); cbn [fst]; [apply carries_on_refl|].
    destruct (prop data "projectId") as [v|]; cbn [fst]; [|apply carries_on_refl].
    destruct (negb (truthy v)); cbn [fst]; [apply carries_on_refl|].
    destruct (load_project w v) as [t|[id fs]]; cbn [fst];
      auto using carries_on_refl, carries_on_spawn.
  - apply carries_on_refl.
  - unfold postTriggerSatelliteAnalysis.
    match goal with |- context [if ?c then _ else _] => destruct c end;
      apply carries_on_refl.
  - apply carries_on_refl.
  - unfold postAnalyzeSatellite.
    match goal with |- context [if ?c then _ else _] => destruct c end;
      cbn [fst]; auto using carries_on_refl, carries_on_spawn.
  - unfold proc_close.
    destruct (find_proc h w) as [p|]; [|apply carries_on_late_close].
    destruct (awaited_by p); cbv beta iota.
    + eapply carries_on_trans; [apply (carries_on_reap w h)|].
      apply carries_on_resume_trigger.
    + rewrite resume_call_frame. apply carries_on_reap.
    + apply carries_on_reap.
  - unfold proc_error.
    destruct (find_proc h w) as [p|]; [|apply carries_on_late_close].
    destruct (awaited_by p); cbv beta iota.
    + eapply carries_on_trans; [apply (carries_on_reap w h)|].
      apply carries_on_resume_trigger.
    + rewrite resume_call_frame. apply carries_on_reap.
    + eapply carries_on_trans; [apply (carries_on_reap w h)|].
      apply carries_on_crash_server.
  - unfold advance.
    eapply carries_on_trans; [|apply carries_on_fire_all].
    repeat split; cbn; auto; try lia.
    exists []. split; [now rewrite app_nil_r|constructor].
Qed.

Lemma written_step rt w e :
  projects (fst (step rt w e)) = written (projects w) [e]
  /\ firestore_up (fst (step rt w e)) = firestore_up w
  /\ exists more,
       logs (fst (step rt w e)) = logs w ++ more
       /\ List.Forall (fun entry => log_status entry = "failed"%string) more.
Proof.
  pose proof (carries_on_step rt w e) as H.
  destruct e;
    try (destruct H as (Hp & Hu & _ & Hl); cbn [written]; now auto).
  clear H. cbn [step written].
  destruct (projects w !! docId) as [doc|] eqn:Hdoc.
  - destruct (carries_on_satelliteInspector
                (write_project w docId after) docId (Some doc) after)
      as (Hp & Hu & _ & Hl).
    rewrite Hp, Hu. now destruct after.
  - destruct after as [doc|].
    + destruct (carries_on_satelliteInspector
                  (write_project w docId (Some doc)) docId None (Some doc))
        as (Hp & Hu & _ & Hl).
      rewrite Hp, Hu. auto.
    + cbn [fst]. rewrite delete_id by exact Hdoc. repeat split.
      exists []. split; [now rewrite app_nil_r|constructor].
Qed.

(** Over any schedule of project writes, calls of the two satellite
    callables, requests to the three satellite routes, process events
    and timers: the projects collection holds what the writes of the
    schedule put there and nothing else, so these handlers leave it
    alone; they never remove or rewrite a document of
    satelliteAnalysisLogs, and every document they add has status
    'failed': a run that succeeds leaves no trace there. *)
Theorem handlers_only_append_failures rt es : forall w,
  projects (fst (run rt w es)) = written (projects w) es
  /\ firestore_up (fst (run rt w es)) = firestore_up w
  /\ exists more,
       logs (fst (run rt w es)) = logs w ++ more
       /\ List.Forall (fun entry => log_status entry = "failed"%string) more.
Proof.
  induction es as [|e rest IH]; intros w; cbn [run].
  - cbn [fst written]. repeat split.
    exists []. split; [now rewrite app_nil_r|constructor].
  - destruct (written_step rt w e) as (Hp & Hu & m & Hl & Hf).
    destruct (step rt w e) as [w1 r1]. cbn [fst] in *.
    destruct (IH w1) as (Hp' & Hu' & m' & Hl' & Hf').
    destruct (run rt w1 rest) as [w2 r2]. cbn [fst] in *.
    repeat split.
    + rewrite Hp', Hp. destruct e; try reflexivity.
      now destruct after.
    + congruence.
    + exists (m ++ m'). split.
      * rewrite Hl', Hl. now rewrite app_assoc.
      * apply List.Forall_app. now split.
Qed.

(** ** Process handles *)

Lemma NoDup_map_filter {A B} (f : A -> B) (g : A -> bool) (l : list A) :
  NoDup (List.map f l) -> NoDup (List.map f (List.filter g l)).
Proof.
  induction l as [|a l IH]; cbn [List.map List.filter]; intros Hnd; [constructor|].
  apply NoDup_cons in Hnd as [Hnotin Hrest].
  destruct (g a); cbn [List.map]; [|now apply IH].
  apply NoDup_cons. split; [|now apply IH].
  intros Hin. apply Hnotin. apply list_elem_of_In in Hin. apply list_elem_of_In.
  apply in_map_iff in Hin as (x & Hx & Hxin). apply in_map_iff.
  exists x. split; [exact Hx|]. now apply filter_In in Hxin as [Hxin _].
Qed.

Lemma same_handle_same_proc (l : list proc) a b :
  NoDup (List.map handle l) -> In a l -> In b l -> handle a = handle b -> a = b.
Proof.
  induction l as [|x l IH]; cbn [List.map]; intros Hnd Ha Hb Heq; [destruct Ha|].
  apply NoDup_cons in Hnd as [Hnotin Hrest].
  assert (Hout : forall y, In y l -> handle y <> handle x).
  { intros y Hy E. apply Hnotin. apply list_elem_of_In, in_map_iff.
    exists y. now split. }
  destruct Ha as [<-|Ha], Hb as [<-|Hb]; auto.
  - exfalso. now apply (Hout b Hb).
  - exfalso. now apply (Hout a Ha).
Qed.

Lemma orderly_boot db : orderly (boot db).
Proof.
  repeat split; cbn; try constructor; intros; contradiction.
Qed.

Lemma orderly_same w w' :
  running w' = running w -> killed w' = killed w ->
  next_handle w' = next_handle w -> orderly w -> orderly w'.
Proof. unfold orderly. intros -> -> ->. auto. Qed.

Lemma orderly_spawn w k : orderly w -> orderly (spawn w k).
Proof.
  intros (Hb & Hr & Hk & Hd). unfold orderly. cbn [running killed next_handle spawn].
  assert (Hbr : forall p, In p (running w) -> (handle p < next_handle w)%nat).
  { intros p Hp. apply Hb, in_or_app. now left. }
  assert (Hbk : forall p, In p (killed w) -> (handle p < next_handle w)%nat).
  { intros p Hp. apply Hb, in_or_app. now right. }
  repeat split.
  - intros p Hp. apply in_app_or in Hp as [Hp|Hp].
    + apply in_app_or in Hp as [Hp|[<-|[]]]; [|cbn; lia].
      specialize (Hbr p Hp). lia.
    + specialize (Hbk p Hp). lia.
  - rewrite List.map_app. cbn [List.map handle]. apply NoDup_app. repeat split.
    + exact Hr.
    + intros x Hx Hx'. apply list_elem_of_In in Hx, Hx'.
      destruct Hx' as [<-|[]]. apply in_map_iff in Hx as (p & Hp & Hpin).
      specialize (Hbr p Hpin). lia.
    + apply NoDup_singleton.
  - exact Hk.
  - intros p q Hp Hq. apply in_app_or in Hp as [Hp|[<-|[]]].
    + now apply Hd.
    + cbn [handle]. specialize (Hbk q Hq). lia.
Qed.

Lemma orderly_reap w h : orderly w -> orderly (reap h w).
Proof.
  intros (Hb & Hr & Hk & Hd). unfold orderly. cbn [running killed next_handle reap set_running].
  repeat split.
  - intros p Hp. apply Hb. apply in_app_or in Hp as [Hp|Hp]; apply in_or_app.
    + left. now apply filter_In in Hp as [Hp _].
    + now right.
  - now apply NoDup_map_filter.
  - exact Hk.
  - intros p q Hp Hq. apply filter_In in Hp as [Hp _]. now apply Hd.
Qed.

Lemma orderly_forget w h : orderly w -> orderly (forget h w).
Proof.
  intros (Hb & Hr & Hk & Hd). unfold orderly. cbn [running killed next_handle forget set_killed].
  repeat split.
  - intros p Hp. apply Hb. apply in_app_or in Hp as [Hp|Hp]; apply in_or_app.
    + now left.
    + right. now apply filter_In in Hp as [Hp _].
  - exact Hr.
  - now apply NoDup_map_filter.
  - intros p q Hp Hq. apply filter_In in Hq as [Hq _]. now apply Hd.
Qed.

Lemma orderly_resume_trigger w projectId r :
  orderly w -> orderly (fst (resume_trigger w projectId r)).
Proof.
  intros Hw. destruct r as [|message]; cbn [resume_trigger fst]; [exact Hw|].
  destruct (firestore_up w); cbn [fst]; [|exact Hw].
  now apply (orderly_same w).
Qed.

Lemma orderly_crash_server w : orderly w -> orderly (crash_server w).
Proof.
  intros (Hb & Hr & Hk & Hd). unfold orderly, crash_server.
  cbn [running killed next_handle set_killed set_running].
  repeat split.
  - intros p Hp. apply Hb. apply in_app_or in Hp as [Hp|Hp]; apply in_or_app.
    + left. now apply filter_In in Hp as [Hp _].
    + right. now apply filter_In in Hp as [Hp _].
  - now apply NoDup_map_filter.
  - now apply NoDup_map_filter.
  - intros p q Hp Hq. apply filter_In in Hp as [Hp _].
    apply filter_In in Hq as [Hq _]. now apply Hd.
Qed.

Lemma orderly_late_close w h : orderly w -> orderly (fst (late_close w h)).
Proof.
  intros Hw. unfold late_close. destruct (find_killed h w) as [p|]; [|exact Hw].
  destruct (awaited_by p); cbn [fst];
    [now apply orderly_forget..|now apply orderly_crash_server, orderly_forget].
Qed.

Lemma orderly_satelliteInspector w projectId before after :
  orderly w -> orderly (fst (satelliteInspector w projectId before after)).
Proof.
  intros Hw. unfold satelliteInspector, runSatelliteAnalysis.
  repeat match goal with |- context [if ?c then _ else _] => destruct c end;
    cbn [fst]; auto using orderly_spawn.
Qed.

Lemma orderly_advance w dt : orderly w -> orderly (fst (advance w dt)).
Proof.
  intros (Hb & Hr & Hk & Hd). unfold advance.
  set (now := clock w + Z.max 0 dt).
  set (expired := List.filter (due now) (running w)).
  set (alive := List.filter (fun p => negb (due now p)) (running w)).
  set (w0 := set_killed _ _).
  destruct (fire_all_frame expired w0) as (_ & _ & Er & En & _).
  pose proof (fire_all_killed expired w0) as Ek.
  apply (orderly_same w0); auto.
  unfold orderly, w0. cbn [running killed next_handle set_killed set_running set_clock].
  repeat split.
  - intros p Hp. apply Hb. apply in_or_app.
    apply in_app_or in Hp as [Hp|Hp].
    + left. now apply filter_In in Hp as [Hp _].
    + apply in_app_or in Hp as [Hp|Hp]; [now right|].
      left. now apply filter_In in Hp as [Hp _].
  - now apply NoDup_map_filter.
  - rewrite List.map_app. apply NoDup_app. repeat split.
    + exact Hk.
    + intros x Hx Hx'. apply list_elem_of_In in Hx, Hx'.
      apply in_map_iff in Hx as (q & <- & Hq).
      apply in_map_iff in Hx' as (p & Hpq & Hp).
      apply filter_In in Hp as [Hp _]. now apply (Hd p q Hp Hq).
    + now apply NoDup_map_filter.
  - intros p q Hp Hq. apply filter_In in Hp as [Hp Hnd].
    apply in_app_or in Hq as [Hq|Hq]; [now apply Hd|].
    apply filter_In in Hq as [Hq Hdue]. intros Heq.
    assert (p = q) by now apply (same_handle_same_proc (running w)).
    subst q. rewrite Hdue in Hnd. discriminate.
Qed.

Lemma orderly_step rt w e : orderly w -> orderly (fst (step rt w e)).
Proof.
  intros Hw. destruct e; cbn [step].
  - now apply orderly_satelliteInspector.
  - destruct (projects w !! docId) as [doc|]; [|destruct after];
      try exact Hw; now apply orderly_satelliteInspector, (orderly_same w).
  - unfold triggerSatelliteAnalysis, runSatelliteAnalysis.
    destruct (negb auth); cbn [fst]; auto.
    destruct (prop data "projectId") as [v|]; cbn [fst]; auto.
    destruct (negb (truthy v)); cbn [fst]; auto.
    destruct (load_project w v) as [t|[id fs]]; cbn [fst]; auto using orderly_spawn.
  - exact Hw.
  - unfold postTriggerSatelliteAnalysis.
    match goal with |- context [if ?c then _ else _] => destruct c end; exact Hw.
  - exact Hw.
  - unfold postAnalyzeSatellite.
    match goal with |- context [if ?c then _ else _] => destruct c end;
      cbn [fst]; auto using orderly_spawn.
  - unfold proc_close.
    destruct (find_proc h w) as [p|]; [|now apply orderly_late_close].
    destruct (awaited_by p); cbv beta iota.
    + apply orderly_resume_trigger, orderly_reap, Hw.
    + rewrite resume_call_frame. apply orderly_reap, Hw.
    + apply orderly_reap, Hw.
  - unfold proc_error.
    destruct (find_proc h w) as [p|]; [|now apply orderly_late_close].
    destruct (awaited_by p); cbv beta iota.
    + apply orderly_resume_trigger, orderly_reap, Hw.
    + rewrite resume_call_frame. apply orderly_reap, Hw.
    + apply orderly_crash_server, orderly_reap, Hw.
  - now apply orderly_advance.
Qed.

Lemma orderly_run rt es : forall w, orderly w -> orderly (fst (run rt w es)).
Proof.
  induction es as [|e rest IH]; intros w Hw; cbn [run]; auto.
  pose proof (orderly_step rt w e Hw) as H1.
  destruct (step rt w e) as [w1 r1]. pose proof (IH w1 H1) as H2.
  now destruct (run rt w1 rest) as [w2 r2].
Qed.

Lemma late_close_frame w h :
  next_handle (fst (late_close w h)) = next_handle w
  /\ (forall p, In p (running (fst (late_close w h))) -> In p (running w))
  /\ logs (fst (late_close w h)) = logs w.
Proof.
  unfold late_close. destruct (find_killed h w) as [p|]; [|auto].
  destruct (awaited_by p); cbn; repeat split; auto.
  intros q Hq. now apply filter_In in Hq as [Hq _].
Qed.

Lemma satelliteInspector_spawns w projectId before after :
  let w' := fst (satelliteInspector w projectId before after) in
  next_handle w' = next_handle w \/ next_handle w' = S (next_handle w).
Proof.
  unfold satelliteInspector, runSatelliteAnalysis.
  repeat match goal with |- context [if ?c then _ else _] => destruct c end;
    cbn; auto.
Qed.

(** Among the events of the satellite entry points, a project write,
    a manual call and a request to [/analyze-satellite] start at most
    one process each.  The exit of a process, a spawn error, a timer,
    [getSatelliteAnalysis] and the two mock endpoints start none and
    add nothing to the processes awaited: no handler runs a failed
    analysis again. *)
Theorem only_triggers_start_processes rt w e :
  let w' := fst (step rt w e) in
  match e with
  | FirestoreWrite _ _ _ | ProjectWrite _ _ | CallTrigger _ _ | PostAnalyze _ _ =>
      next_handle w' = next_handle w \/ next_handle w' = S (next_handle w)
  | _ =>
      next_handle w' = next_handle w
      /\ forall p, In p (running w') -> In p (running w)
  end.
Proof.
  cbv zeta. destruct e; cbn [step].
  - apply satelliteInspector_spawns.
  - destruct (projects w !! docId) as [doc|]; [|destruct after]; auto;
      apply (satelliteInspector_spawns (write_project w docId _)).
  - unfold triggerSatelliteAnalysis, runSatelliteAnalysis.
    destruct (negb auth); cbn [fst]; auto.
    destruct (prop data "projectId") as [v|]; cbn [fst]; auto.
    destruct (negb (truthy v)); cbn [fst]; auto.
    destruct (load_project w v) as [t|[id fs]]; cbn; auto.
  - auto.
  - unfold postTriggerSatelliteAnalysis.
    match goal with |- context [if ?c then _ else _] => destruct c end; auto.
  - auto.
  - unfold postAnalyzeSatellite.
    match goal with |- context [if ?c then _ else _] => destruct c end; cbn; auto.
  - unfold proc_close. destruct (find_proc h w) as [p|].
    + assert (Hsub : forall q, In q (running (reap h w)) -> In q (running w)).
      { intros q Hq. now apply filter_In in Hq as [Hq _]. }
      destruct (awaited_by p) as [id|id|request]; cbv beta iota.
      * destruct (resume_trigger_frame (reap h w) id (on_close code stderr))
          as (_ & _ & Hr & Hn & _).
        rewrite Hr, Hn. auto.
      * rewrite resume_call_frame. auto.
      * auto.
    + destruct (late_close_frame w h) as (Hn & Hr & _). rewrite Hn. auto.
  - unfold proc_error. destruct (find_proc h w) as [p|].
    + assert (Hsub : forall q, In q (running (reap h w)) -> In q (running w)).
      { intros q Hq. now apply filter_In in Hq as [Hq _]. }
      destruct (awaited_by p) as [id|id|request]; cbv beta iota.
      * destruct (resume_trigger_frame (reap h w) id (Rejected message))
          as (_ & _ & Hr & Hn & _).
        rewrite Hr, Hn. auto.
      * rewrite resume_call_frame. auto.
      * cbn [fst]. split; [reflexivity|]. intros q Hq. apply Hsub.
        now apply filter_In in Hq as [Hq _].
    + destruct (late_close_frame w h) as (Hn & Hr & _). rewrite Hn. auto.
  - unfold advance.
    match goal with |- context [fire_all ?w0 ?ps] =>
      destruct (fire_all_frame ps w0) as (_ & _ & Hr & Hn & _) end.
    rewrite Hr, Hn. split; [reflexivity|].
    intros p Hp. now apply filter_In in Hp as [Hp _].
Qed.

Lemma find_fresh (ps : list proc) (n : nat) (new : proc) :
  (forall p, In p ps -> (handle p < n)%nat) -> handle new = n ->
  List.find (fun p => Nat.eqb (handle p) n) (ps ++ [new]) = Some new
  /\ List.filter (fun p => negb (Nat.eqb (handle p) n)) (ps ++ [new]) = ps.
Proof.
  intros Hlt Hnew. induction ps as [|p ps IH]; cbn [app List.find List.filter].
  - rewrite Hnew, Nat.eqb_refl. auto.
  - assert (Hp : Nat.eqb (handle p) n = false).
    { apply Nat.eqb_neq. specialize (Hlt p (or_introl eq_refl)). lia. }
    rewrite Hp. cbn [negb].
    destruct IH as [IH1 IH2]; [intros q Hq; apply Hlt; now right|].
    rewrite IH1, IH2. auto.
Qed.

(** A manual run from call to clean exit: the process that the call
    starts is the one the next handle names; when it exits with code
    0 the caller is answered success with the project id, and the
    process table and the log are as they were before the call. *)
Theorem manual_run_round_trip rt w projectId projectData stdout stderr :
  orderly w -> firestore_up w = true ->
  projects w !! projectId = Some projectData -> projectId <> ""%string ->
  let result :=
    run rt w [CallTrigger true (call_for projectId);
              ProcClose (next_handle w) (Some 0) stdout stderr] in
  snd result
  = [CallReturned (JObj [("success", JBool true);
       ("message", JStr ("Satellite analysis triggered for project " +:+ projectId));
       ("projectId", JStr projectId)])]
  /\ running (fst result) = running w
  /\ killed (fst result) = killed w
  /\ logs (fst result) = logs w.
Proof.
  intros (Hb & _) Hup Hdoc Hne. cbv zeta. cbn [run step].
  rewrite (manual_trigger_always_admits w projectId projectData Hup Hdoc Hne).
  destruct (find_fresh (running w) (next_handle w)
              (Proc (next_handle w) (WCall projectId) (clock w))) as [Hfind Hfilter];
    [intros p Hp; apply Hb, in_or_app; now left|reflexivity|].
  unfold proc_close, find_proc, reap, runSatelliteAnalysis.
  cbn [running spawn set_running]. rewrite Hfind, Hfilter.
  cbn [awaited_by on_close resume_call fst snd app running killed logs].
  auto.
Qed.

Lemma manual_run_round_trip_witness :
  snd (run plain_runtime (boot {[ "p1"%string := road_project ]})
           [CallTrigger true (call_for "p1"); ProcClose 0 (Some 0) "done" ""])
  = [CallReturned (JObj [("success", JBool true);
       ("message", JStr "Satellite analysis triggered for project p1");
       ("projectId", JStr "p1")])].
Proof.
  destruct (manual_run_round_trip plain_runtime
              (boot {[ "p1"%string := road_project ]}) "p1"%string road_project
              "done"%string ""%string) as (Hr & _).
  - apply orderly_boot.
  - reflexivity.
  - reflexivity.
  - discriminate.
  - exact Hr.
Defined.

(** ** After a timeout *)

Lemma killed_by_timer w p dt :
  orderly w -> In p (running w) -> deadline p <= clock w + Z.max 0 dt ->
  find_proc (handle p) (fst (advance w dt)) = None
  /\ find_killed (handle p) (fst (advance w dt)) = Some p.
Proof.
  intros (Hb & Hr & Hk & Hd) Hin Hdue. unfold advance, find_proc, find_killed.
  set (now := clock w + Z.max 0 dt).
  set (expired := List.filter (due now) (running w)).
  set (alive := List.filter (fun q => negb (due now q)) (running w)).
  set (w0 := set_killed _ _).
  destruct (fire_all_frame expired w0) as (_ & _ & Er & _).
  rewrite Er, (fire_all_killed expired w0).
  unfold w0. cbn [running killed set_killed set_running set_clock].
  assert (Hpdue : due now p = true) by (unfold due; now apply Z.leb_le).
  split.
  - destruct (List.find _ alive) as [q|] eqn:Hq; [|reflexivity].
    apply find_some in Hq as [Hq1 Hq2]. apply Nat.eqb_eq in Hq2.
    apply filter_In in Hq1 as [Hq1 Hnd].
    assert (q = p) by now apply (same_handle_same_proc (running w)).
    subst q. rewrite Hpdue in Hnd. discriminate.
  - destruct (List.find _ (killed w ++ expired)) as [q|] eqn:Hq.
    + apply find_some in Hq as [Hq1 Hq2]. apply Nat.eqb_eq in Hq2.
      apply in_app_or in Hq1 as [Hq1|Hq1].
      * exfalso. now apply (Hd p q Hin Hq1).
      * apply filter_In in Hq1 as [Hq1 _]. f_equal.
        now apply (same_handle_same_proc (running w)).
    + exfalso.
      assert (Hp : In p (killed w ++ expired)).
      { apply in_or_app. right. apply filter_In. now split. }
      pose proof (find_none _ _ Hq p Hp) as Habs. cbv beta in Habs.
      rewrite Nat.eqb_refl in Habs. discriminate.
Qed.

(** A Cloud Functions run that its timer has failed is settled for
    good: when the killed process later reports its end or an error,
    nobody is answered a second time and nothing more is logged. *)
Theorem timed_out_run_settles_once rt w p dt code stdout stderr message :
  orderly w -> In p (running w) ->
  (exists id, awaited_by p = WTrigger id \/ awaited_by p = WCall id) ->
  deadline p <= clock w + Z.max 0 dt ->
  let w1 := fst (advance w dt) in
  (snd (step rt w1 (ProcClose (handle p) code stdout stderr)) = []
   /\ logs (fst (step rt w1 (ProcClose (handle p) code stdout stderr))) = logs w1)
  /\ (snd (step rt w1 (ProcError (handle p) message)) = []
      /\ logs (fst (step rt w1 (ProcError (handle p) message))) = logs w1).
Proof.
  intros Hw Hin (id & Hk) Hdue. cbv zeta.
  destruct (killed_by_timer w p dt Hw Hin Hdue) as [Hnone Hsome].
  cbn [step]. unfold proc_close, proc_error, late_close.
  rewrite Hnone, Hsome.
  destruct Hk as [-> | ->]; cbn [fst snd logs forget set_killed]; auto.
Qed.

Lemma timed_out_run_settles_once_witness :
  let w := fst (step plain_runtime (boot ∅)
                     (FirestoreWrite "p1" None (Some road_project))) in
  snd (step plain_runtime (fst (advance w 600000))
            (ProcClose 0 None "" "")) = [].
Proof.
  cbv zeta.
  set (w := fst (step plain_runtime (boot ∅)
                      (FirestoreWrite "p1" None (Some road_project)))).
  assert (Hw : orderly w) by (apply orderly_step, orderly_boot).
  assert (Hin : In (Proc 0 (WTrigger "p1") 0) (running w)) by (now left).
  assert (Hdue : deadline (Proc 0 (WTrigger "p1") 0) <= clock w + Z.max 0 600000)
    by (vm_compute; discriminate).
  destruct (timed_out_run_settles_once plain_runtime w _ 600000 None
              ""%string ""%string ""%string Hw Hin) as [[Hr _] _].
  - exists "p1"%string. now left.
  - exact Hdue.
  - exact Hr.
Defined.

(** A request to [/analyze-satellite] that was answered 408 by its
    timer is not over: the ['close'] of the killed process runs the
    listener that sends a response, on a request already answered,
    and the exception leaves the listener. *)
Theorem route_close_after_timeout_crashes rt w p request dt code stdout stderr :
  orderly w -> In p (running w) -> awaited_by p = WHttp request ->
  deadline p <= clock w + Z.max 0 dt ->
  In (HttpResponse request 408 (error_body "Analysis timeout")) (snd (advance w dt))
  /\ snd (step rt (fst (advance w dt)) (ProcClose (handle p) code stdout stderr))
     = [ServerCrashed].
Proof.
  intros Hw Hin Hk Hdue. split.
  - unfold advance.
    match goal with |- context [fire_all ?w0 ?ps] =>
      pose proof (fire_all_replies ps w0 p) as Hr end.
    unfold timeout_reply in Hr. rewrite Hk in Hr. apply Hr.
    apply filter_In. split; [exact Hin|]. unfold due. now apply Z.leb_le.
  - destruct (killed_by_timer w p dt Hw Hin Hdue) as [Hnone Hsome].
    cbn [step]. unfold proc_close, late_close. now rewrite Hnone, Hsome, Hk.
Qed.

Lemma route_close_after_timeout_crashes_witness :
  let w := fst (step plain_runtime (boot ∅)
                     (PostAnalyze 7 [("projectId", JStr "p1"); ("latitude", num 12);
                                     ("longitude", num 77)])) in
  snd (step plain_runtime (fst (advance w 300000)) (ProcClose 0 None "" ""))
  = [ServerCrashed].
Proof.
  cbv zeta.
  set (w := fst (step plain_runtime (boot ∅) _)).
  assert (Hw : orderly w) by (apply orderly_step, orderly_boot).
  assert (Hin : In (Proc 0 (WHttp 7) 0) (running w)) by (now left).
  assert (Hdue : deadline (Proc 0 (WHttp 7) 0) <= clock w + Z.max 0 300000)
    by (vm_compute; discriminate).
  exact (proj2 (route_close_after_timeout_crashes plain_runtime w _ 7%nat 300000
                  None ""%string ""%string Hw Hin eq_refl Hdue)).
Defined.

(** ** The close listener of the route *)

(** [/analyze-satellite] answers 200 only when the script exited with
    code 0, its output parsed to a value other than null, and that
    value carries no truthy [error]; every other end of the script is
    answered 500. *)
Theorem route_succeeds_only_on_clean_report rt request code output errorOutput :
  (has_status 200 (route_on_close rt request code output errorOutput)
   <-> code = Some 0
       /\ exists result err,
            JSON_parse rt output = Some result
            /\ prop result "error" = Some err /\ truthy err = false)
  /\ (has_status 200 (route_on_close rt request code output errorOutput)
      \/ has_status 500 (route_on_close rt request code output errorOutput)).
Proof.
  assert (Hclean : forall (P : Prop) result err,
            JSON_parse rt output = Some result ->
            prop result "error" = Some err ->
            (P <-> truthy err = false) ->
            (P <-> Some 0 = Some 0
                   /\ exists result' err',
                        JSON_parse rt output = Some result'
                        /\ prop result' "error" = Some err'
                        /\ truthy err' = false)).
  { intros P result err Hr He HP. rewrite HP. split.
    - intros Hf. split; [reflexivity|]. now exists result, err.
    - intros [_ (r & e & Hr' & He' & Hf)]. congruence. }
  unfold route_on_close. destruct code as [[|c|c]|].
  2-4: cbn [has_status]; split;
       [split; [discriminate|intros [H _]; discriminate]|now right].
  destruct (JSON_parse rt output) as [result|] eqn:Hr.
  - destruct (prop result "error") as [err|] eqn:He.
    + destruct (truthy err) eqn:Ht; cbn [has_status].
      * split; [|now right].
        apply (Hclean _ result err eq_refl He). rewrite Ht. split; discriminate.
      * split; [|now left].
        apply (Hclean _ result err eq_refl He). rewrite Ht. split; reflexivity.
    + cbn [has_status]. split; [|now right]. split; [discriminate|].
      intros [_ (r & e & Hr' & He' & _)]. congruence.
  - cbn [has_status]. split; [|now right]. split; [discriminate|].
    intros [_ (r & e & Hr' & _)]. discriminate.
Qed.

(** * Properties of the feedback and project handlers *)

(** ** Field lists *)

Lemma assoc_set_field_eq k v fs : assoc k (set_field k v fs) = v.
Proof.
  induction fs as [|[k' v'] rest IH]; cbn [set_field assoc].
  - now rewrite String.eqb_refl.
  - destruct (String.eqb k k') eqn:E; cbn [assoc]; rewrite ?String.eqb_refl, ?E; auto.
Qed.

Lemma assoc_set_field_ne k k' v fs :
  k <> k' -> assoc k' (set_field k v fs) = assoc k' fs.
Proof.
  intros Hne. assert (Hkk : String.eqb k' k = false).
  { apply String.eqb_neq. congruence. }
  induction fs as [|[k0 v0] rest IH]; cbn [set_field assoc].
  - now rewrite Hkk.
  - destruct (String.eqb k k0) eqn:E; cbn [assoc].
    + apply String.eqb_eq in E. subst k0. now rewrite Hkk.
    + now rewrite IH.
Qed.

Lemma assoc_spread k acc src :
  assoc k (spread acc src) = if has_key k src then assoc k src else assoc k acc.
Proof.
  induction src as [|[k' v'] rest IH]; cbn [spread has_key assoc]; [reflexivity|].
  destruct (String.eqb k k') eqn:E; cbn [orb].
  - apply String.eqb_eq in E. subst k'. apply assoc_set_field_eq.
  - rewrite assoc_set_field_ne; [exact IH|].
    apply String.eqb_neq in E. congruence.
Qed.

Lemma assoc_without_key k fs : has_key k fs = false -> assoc k fs = JUndefined.
Proof.
  induction fs as [|[k' v'] rest IH]; cbn [has_key assoc]; [reflexivity|].
  destruct (String.eqb k k'); cbn [orb]; [discriminate|exact IH].
Qed.

Lemma has_key_set_field_eq k v fs : has_key k (set_field k v fs) = true.
Proof.
  induction fs as [|[k' v'] rest IH]; cbn [set_field has_key].
  - now rewrite String.eqb_refl.
  - destruct (String.eqb k k') eqn:E; cbn [has_key];
      rewrite ?String.eqb_refl, ?E; auto.
Qed.

Lemma has_key_set_field_ne k k' v fs :
  k <> k' -> has_key k' (set_field k v fs) = has_key k' fs.
Proof.
  intros Hne. assert (E0 : String.eqb k' k = false).
  { apply String.eqb_neq. congruence. }
  induction fs as [|[k1 v1] rest IH]; cbn [set_field has_key].
  - now rewrite E0.
  - destruct (String.eqb k k1) eqn:E; cbn [has_key].
    + apply String.eqb_eq in E. subst k1. now rewrite E0.
    + now rewrite IH.
Qed.

Lemma has_key_spread_nil k src : has_key k (spread [] src) = has_key k src.
Proof.
  induction src as [|[k1 v1] rest IH]; cbn [spread has_key]; [reflexivity|].
  destruct (String.eqb k k1) eqn:E; cbn [orb].
  - apply String.eqb_eq in E. subst k1. apply has_key_set_field_eq.
  - rewrite has_key_set_field_ne; [exact IH|].
    apply String.eqb_neq in E. congruence.
Qed.

Lemma assoc_spread_nil k src : assoc k (spread [] src) = assoc k src.
Proof.
  rewrite assoc_spread. destruct (has_key k src) eqn:E; [reflexivity|].
  now rewrite (assoc_without_key k src E).
Qed.

(** ** [POST /api/submit-feedback] *)

(** The route changes the store only together with a 200, and then
    only by one feedback document under the id Firestore assigned:
    that document has status pending, the project id and the feedback
    of the request, both truthy, the rating of the request (truthy:
    a rating of 0 is never stored) read as an integer, the location
    of the request or null, the time of the write, and for its user
    id the one of the request when that is truthy and 'anonymous'
    when it is not.  Projects, users and pending projects are not
    touched. *)
Theorem stored_feedback_is_wellformed lib s request assigned body :
  let s' := fst (postSubmitFeedback lib s request assigned body) in
  let r := snd (postSubmitFeedback lib s request assigned body) in
  (has_status 200 r \/ s' = s)
  /\ base s' = base s /\ users s' = users s
  /\ pendingProjects s' = pendingProjects s
  /\ forall id doc, userFeedback s' !! id = Some doc ->
       userFeedback s !! id = Some doc
       \/ (assigned = Some id
           /\ assoc "status" doc = JStr "pending"
           /\ assoc "projectId" doc = assoc "projectId" body
           /\ truthy (assoc "projectId" body) = true
           /\ assoc "feedback" doc = assoc "feedback" body
           /\ truthy (assoc "feedback" body) = true
           /\ truthy (assoc "rating" body) = true
           /\ assoc "rating" doc = JNum (parseInt lib (assoc "rating" body))
           /\ assoc "location" doc = or_else (assoc "location" body) JNull
           /\ assoc "timestamp" doc = serverTimestamp s
           /\ assoc "userId" doc
              = (if truthy (assoc "userId" body) then assoc "userId" body
                 else JStr "anonymous")
           /\ truthy (assoc "userId" doc) = true).
Proof.
  cbv zeta. unfold postSubmitFeedback.
  destruct (truthy (assoc "projectId" body)) eqn:Hp; cbn [negb orb];
    [|cbn [fst snd]; repeat split; auto].
  destruct (truthy (assoc "feedback" body)) eqn:Hf; cbn [negb orb];
    [|cbn [fst snd]; repeat split; auto].
  destruct (truthy (assoc "rating" body)) eqn:Hr; cbn [negb orb];
    [|cbn [fst snd]; repeat split; auto].
  destruct (express_db s); cbn [negb]; [|cbn [fst snd]; repeat split; auto].
  destruct assigned as [new|]; cbn [fst snd]; [|repeat split; auto].
  repeat split; [now left|].
  intros id doc. cbn [userFeedback with_feedback].
  destruct (decide (new = id)) as [->|Hne].
  - rewrite lookup_insert_eq. intros [= <-]. right.
    repeat split; try reflexivity.
    cbn [assoc String.eqb Ascii.eqb Bool.eqb]. unfold or_else.
    now destruct (truthy (assoc "userId" body)) eqn:Hu.
  - rewrite lookup_insert_ne by exact Hne. now left.
Qed.

(** ** [POST /api/submit-project] *)

Lemma first_missing_found pre field post projectData :
  (forall g, In g pre -> truthy (assoc g projectData) = true) ->
  truthy (assoc field projectData) = false ->
  first_missing (pre ++ field :: post) projectData = Some field.
Proof.
  intros Hpre Hf. induction pre as [|g pre IH]; cbn [app first_missing].
  - now rewrite Hf.
  - rewrite (Hpre g (or_introl eq_refl)). cbn [negb].
    apply IH. intros g' Hg'. apply Hpre. now right.
Qed.

(** The required fields are checked in the order projectName,
    description, location, budget, and the 400 names the first one
    that is missing or falsy (a budget of 0, an empty name), whatever
    else is missing and whether or not the database is there; nothing
    is stored. *)
Theorem missing_field_is_named_in_order s request assigned projectData
    pre field post :
  requiredFields = pre ++ field :: post ->
  (forall g, In g pre -> truthy (assoc g projectData) = true) ->
  truthy (assoc field projectData) = false ->
  postSubmitProject s request assigned projectData
  = (s, HttpResponse request 400
          (error_body ("Missing required field: " +:+ field))).
Proof.
  intros Hsplit Hpre Hf. unfold postSubmitProject.
  rewrite Hsplit. now rewrite (first_missing_found pre field post projectData Hpre Hf).
Qed.

Lemma missing_field_is_named_in_order_witness :
  postSubmitProject
    {| base := boot ∅; express_db := false; users := ∅; userFeedback := ∅;
       pendingProjects := ∅ |} 4 None
    [("projectName", JStr "Lake fence"); ("description", JStr "Fence");
     ("location", JStr "Ulsoor"); ("budget", num 0)]
  = ({| base := boot ∅; express_db := false; users := ∅; userFeedback := ∅;
        pendingProjects := ∅ |},
     HttpResponse 4 400 (error_body "Missing required field: budget")).
Proof.
  apply (missing_field_is_named_in_order _ _ _ _
           ["projectName"; "description"; "location"]%string "budget"%string []).
  - reflexivity.
  - intros g [<-|[<-|[<-|[]]]]; reflexivity.
  - reflexivity.
Defined.

Lemma submitted_project_fields s projectData :
  let doc := submitted_project s projectData in
  assoc "status" doc = JStr "pending"
  /\ assoc "upvotes" doc = num 0
  /\ assoc "downvotes" doc = num 0
  /\ assoc "submittedBy" doc
     = or_else (assoc "userId" projectData) (JStr "anonymous")
  /\ forall k, k <> "status"%string -> k <> "submittedBy"%string ->
               k <> "timestamp"%string -> k <> "upvotes"%string ->
               k <> "downvotes"%string ->
               assoc k doc = assoc k projectData.
Proof.
  cbv zeta. unfold submitted_project. repeat split.
  - do 4 (rewrite assoc_set_field_ne by discriminate). apply assoc_set_field_eq.
  - rewrite assoc_set_field_ne by discriminate. apply assoc_set_field_eq.
  - apply assoc_set_field_eq.
  - do 3 (rewrite assoc_set_field_ne by discriminate). apply assoc_set_field_eq.
  - intros k H1 H2 H3 H4 H5.
    rewrite !assoc_set_field_ne by congruence. apply assoc_spread_nil.
Qed.



Lemma missing_geoPoint_submitted s projectData :
  missing_geoPoint (JObj (submitted_project s projectData))
  = missing_geoPoint (JObj projectData).
Proof.
  destruct (submitted_project_fields s projectData) as (_ & _ & _ & _ & Hk).
  unfold missing_geoPoint, opt_prop, prop.
  now rewrite (Hk "geoPoint"%string) by discriminate.
Qed.

(** What the Firestore trigger does with a project that came in
    through the route: the new document starts an analysis exactly
    when the request carried a geoPoint with truthy latitude and
    longitude.  The [location] that the route requires plays no part,
    so a request with the required fields alone is never analysed. *)
Theorem submitted_project_meets_inspector rt s request id projectData :
  first_missing requiredFields projectData = None -> express_db s = true ->
  let s' := fst (postSubmitProject s request (Some id) projectData) in
  exists doc,
    projects (base s') !! id = Some doc
    /\ step rt (base s') (FirestoreWrite id None (Some doc))
       = if missing_geoPoint (JObj projectData)
         then (base s', [TriggerReturned id])
         else (runSatelliteAnalysis (base s') (WTrigger id), []).
Proof.
  intros Hreq Hdb. cbv zeta. unfold postSubmitProject. rewrite Hreq, Hdb.
  cbn [negb fst base with_base projects put_project].
  exists (submitted_project s projectData). split; [apply lookup_insert_eq|].
  cbn [step]. unfold satelliteInspector.
  cbn [isNewDocument snap_exists negb andb snap_data truthy].
  now rewrite missing_geoPoint_submitted.
Qed.

Lemma submitted_project_meets_inspector_witness :
  let s := {| base := boot ∅; express_db := true; users := ∅; userFeedback := ∅;
              pendingProjects := ∅ |} in
  let body := [("projectName", JStr "Lake fence"); ("description", JStr "Fence");
               ("location", JStr "Ulsoor"); ("budget", num 5)] in
  exists doc,
    projects (base (fst (postSubmitProject s 4 (Some "abc"%string) body))) !! "abc"%string
    = Some doc
    /\ step plain_runtime (base (fst (postSubmitProject s 4 (Some "abc"%string) body)))
            (FirestoreWrite "abc" None (Some doc))
       = (base (fst (postSubmitProject s 4 (Some "abc"%string) body)),
          [TriggerReturned "abc"]).
Proof.
  cbv zeta.
  exact (submitted_project_meets_inspector plain_runtime
           {| base := boot ∅; express_db := true; users := ∅; userFeedback := ∅;
              pendingProjects := ∅ |} 4%nat "abc"%string
           [("projectName", JStr "Lake fence"); ("description", JStr "Fence");
            ("location", JStr "Ulsoor"); ("budget", num 5)] eq_refl eq_refl).
Defined.

(** ** [GET /api/projects/:id] *)

(** Submit, then fetch: a project accepted under an id is answered
    200 by the lookup of that id, with status pending and the name as
    sent; the [id] of the answer is the document id unless the
    request carried an [id] field of its own, which then hides it. *)
Theorem submit_then_fetch s request request' id projectData :
  first_missing requiredFields projectData = None -> express_db s = true ->
  firestore_up (base s) = true -> valid_document_id id = true ->
  exists body,
    getProjectById (fst (postSubmitProject s request (Some id) projectData))
                   request' id
    = HttpResponse request' 200 (JObj body)
    /\ assoc "status" body = JStr "pending"
    /\ assoc "projectName" body = assoc "projectName" projectData
    /\ assoc "id" body
       = if has_key "id" projectData then assoc "id" projectData else JStr id.
Proof.
  intros Hreq Hdb Hup Hid. unfold postSubmitProject. rewrite Hreq, Hdb.
  cbn [negb fst]. unfold getProjectById.
  cbn [express_db with_base base firestore_up put_project projects].
  rewrite Hdb, Hup. cbn [negb].
  rewrite (get_document_valid_id _ id Hid), lookup_insert_eq.
  eexists. split; [reflexivity|].
  destruct (submitted_project_fields s projectData) as (H1 & _ & _ & _ & Hk).
  rewrite !assoc_spread.
  assert (Hsame : forall k, k <> "status"%string -> k <> "submittedBy"%string ->
            k <> "timestamp"%string -> k <> "upvotes"%string ->
            k <> "downvotes"%string ->
            has_key k (submitted_project s projectData) = has_key k projectData).
  { intros k H1' H2' H3' H4' H5'. unfold submitted_project.
    rewrite !has_key_set_field_ne by congruence. apply has_key_spread_nil. }
  repeat split.
  - assert (Hst : has_key "status" (submitted_project s projectData) = true).
    { unfold submitted_project.
      do 4 (rewrite has_key_set_field_ne by discriminate).
      apply has_key_set_field_eq. }
    now rewrite Hst.
  - rewrite (Hsame "projectName"%string) by discriminate.
    rewrite (Hk "projectName"%string) by discriminate.
    destruct (has_key "projectName" projectData) eqn:E; [reflexivity|].
    cbn [assoc String.eqb Ascii.eqb Bool.eqb].
    now rewrite (assoc_without_key _ _ E).
  - rewrite (Hsame "id"%string) by discriminate.
    rewrite (Hk "id"%string) by discriminate.
    destruct (has_key "id" projectData); reflexivity.
Qed.

Lemma submit_then_fetch_witness :
  exists body,
    getProjectById
      (fst (postSubmitProject
              {| base := boot ∅; express_db := true; users := ∅;
                 userFeedback := ∅; pendingProjects := ∅ |} 4 (Some "abc"%string)
              [("projectName", JStr "Lake fence"); ("description", JStr "Fence");
               ("location", JStr "Ulsoor"); ("budget", num 5);
               ("id", JStr "mine")]))
      5 "abc"
    = HttpResponse 5 200 (JObj body)
    /\ assoc "id" body = JStr "mine".
Proof.
  destruct (submit_then_fetch
              {| base := boot ∅; express_db := true; users := ∅;
                 userFeedback := ∅; pendingProjects := ∅ |} 4%nat 5%nat "abc"%string
              [("projectName", JStr "Lake fence"); ("description", JStr "Fence");
               ("location", JStr "Ulsoor"); ("budget", num 5);
               ("id", JStr "mine")] eq_refl eq_refl eq_refl eq_refl)
    as (body & Hb & _ & _ & Hi).
  exists body. split; [exact Hb|exact Hi].
Defined.

(** * Properties of the remaining callables *)

(** ** [submitUserProject] *)

(** A submission that lacks a required field (a latitude or longitude
    of 0 counts as lacking) makes the callable raise invalid-argument
    inside its [try] block, yet the caller is told internal, like for
    any other failure: no error code other than internal ever leaves
    an authenticated call, and a refused submission stores nothing. *)
Theorem user_project_errors_are_internal lib s userId assigned data :
  prop data "projectName" <> None ->
  let r := snd (submitUserProject lib s (Some userId) assigned data) in
  (forall code message, r = CallThrew code message ->
     code = Internal /\ fst (submitUserProject lib s (Some userId) assigned data) = s)
  /\ (truthy (opt_prop data "projectName") && truthy (opt_prop data "description")
      && truthy (opt_prop data "wardNumber") && truthy (opt_prop data "latitude")
      && truthy (opt_prop data "longitude") = false ->
      (exists message,
         pending_project_of lib s userId data
         = inl (ThrowHttps InvalidArgument message))
      /\ r = CallThrew Internal "Failed to submit project").
Proof.
  intros Hdata. cbv zeta. unfold submitUserProject.
  destruct (prop data "projectName") as [v|]; [clear Hdata|contradiction].
  split.
  - intros code message.
    destruct (pending_project_of lib s userId data) as [t|doc];
      [|destruct assigned as [id|]]; cbn [fst snd];
      try (intros [= <- _]; auto); discriminate.
  - intros Hmiss.
    assert (Hthrow : exists message,
              pending_project_of lib s userId data
              = inl (ThrowHttps InvalidArgument message)).
    { unfold pending_project_of.
      destruct (truthy (opt_prop data "projectName")),
               (truthy (opt_prop data "description")),
               (truthy (opt_prop data "wardNumber")),
               (truthy (opt_prop data "latitude")),
               (truthy (opt_prop data "longitude"));
        cbn [andb] in Hmiss; try discriminate; cbn [negb orb]; eauto. }
    split; [exact Hthrow|]. destruct Hthrow as [message ->]. reflexivity.
Qed.

Lemma user_project_errors_are_internal_witness :
  snd (submitUserProject
         {| parseInt := fun _ => NaN; timestampOf := fun v => Some v |}
         {| base := boot ∅; express_db := true; users := ∅; userFeedback := ∅;
            pendingProjects := ∅ |}
         (Some "u1"%string) (Some "new1"%string)
         (JObj [("projectName", JStr "Bus shelter"); ("description", JStr "Shelter");
                ("wardNumber", num 15); ("latitude", num 0);
                ("longitude", dec (775946 # 10000))]))
  = CallThrew Internal "Failed to submit project".
Proof.
  refine (proj2 (proj2 (user_project_errors_are_internal _ _ "u1"%string _ _ _) _)).
  - discriminate.
  - reflexivity.
Defined.

Lemma new_GeoPoint_inside latitude longitude g :
  truthy latitude = true -> truthy longitude = true ->
  new_GeoPoint latitude longitude = Some g ->
  exists lat lng,
    g = geoPoint_of lat lng
    /\ Engine.validPoint {| Engine.latitude := lat; Engine.longitude := lng |} = true
    /\ ~ (lat == 0)%Q /\ ~ (lng == 0)%Q.
Proof.
  intros Hlat Hlng. unfold new_GeoPoint.
  destruct latitude as [| |b|[lat| |neg]|t|items|fs]; try discriminate.
  destruct longitude as [| |b|[lng| |neg]|t|items|fs]; try discriminate.
  destruct (Engine.validPoint _) eqn:Hv; [|discriminate].
  intros [= <-]. exists lat, lng. repeat split; auto.
  - cbn [truthy] in Hlat. apply negb_true_iff in Hlat.
    intros H. apply Qeq_bool_iff in H. congruence.
  - cbn [truthy] in Hlng. apply negb_true_iff in Hlng.
    intros H. apply Qeq_bool_iff in H. congruence.
Qed.

(** What the callable stores: only a pending project, under the
    assigned id, with status 'pending_approval', signed by the
    authenticated caller, and located at a point within the bounds of
    latitude and longitude, off the equator and off the prime
    meridian.  The projects collection, that the satellite trigger
    listens to, is never written. *)
Theorem pending_project_is_located lib s auth assigned data :
  let s' := fst (submitUserProject lib s auth assigned data) in
  base s' = base s /\ users s' = users s /\ userFeedback s' = userFeedback s
  /\ forall id doc, pendingProjects s' !! id = Some doc ->
       pendingProjects s !! id = Some doc
       \/ (assigned = Some id
           /\ assoc "status" doc = JStr "pending_approval"
           /\ (exists userId, auth = Some userId
                              /\ assoc "submittedBy" doc = JStr userId)
           /\ exists lat lng,
                assoc "geoPoint" doc = geoPoint_of lat lng
                /\ Engine.validPoint {| Engine.latitude := lat;
                                        Engine.longitude := lng |} = true
                /\ ~ (lat == 0)%Q /\ ~ (lng == 0)%Q).
Proof.
  cbv zeta. unfold submitUserProject.
  destruct auth as [userId|]; [|cbn [fst]; repeat split; auto].
  destruct (prop data "projectName") as [v|]; [|cbn [fst]; repeat split; auto].
  destruct (pending_project_of lib s userId data) as [t|pending] eqn:Hdoc;
    [cbn [fst]; repeat split; auto|].
  destruct assigned as [new|]; cbn [fst]; [|repeat split; auto].
  repeat split. intros id doc. cbn [pendingProjects with_pending].
  destruct (decide (new = id)) as [->|Hne].
  2: { rewrite lookup_insert_ne by exact Hne. now left. }
  rewrite lookup_insert_eq. intros [= <-]. right.
  unfold pending_project_of in Hdoc.
  destruct (truthy (opt_prop data "projectName")); [|discriminate].
  destruct (truthy (opt_prop data "description")); [|discriminate].
  destruct (truthy (opt_prop data "wardNumber")); [|discriminate].
  destruct (truthy (opt_prop data "latitude")) eqn:Hlat; [|discriminate].
  destruct (truthy (opt_prop data "longitude")) eqn:Hlng; [|discriminate].
  cbn [negb orb] in Hdoc.
  destruct (new_GeoPoint _ _) as [g|] eqn:Hg; [|discriminate].
  destruct (optional_date lib _) as [sd|]; [|discriminate].
  destruct (optional_date lib _) as [ed|]; [|discriminate].
  injection Hdoc as <-.
  repeat split; try reflexivity.
  - now exists userId.
  - destruct (new_GeoPoint_inside _ _ g Hlat Hlng Hg) as (lat & lng & -> & Hv & H0 & H1).
    now exists lat, lng.
Qed.

(** ** [submitFeedback] *)

(** A resident of one ward who comments on a project of another is
    refused: the callable raises permission-denied, the caller is told
    internal, and nothing is stored.  Wards are compared by [!==], so
    a ward kept as text in one document and as a number in the other
    always counts as another ward. *)
Theorem other_ward_feedback_is_refused s userId assigned data
    userData projectId projectData :
  firestore_up (base s) = true ->
  valid_document_id userId = true -> valid_document_id projectId = true ->
  users s !! userId = Some userData ->
  opt_prop data "projectId" = JStr projectId ->
  projects (base s) !! projectId = Some projectData ->
  wards_differ (ward_of_user userData) (assoc "wardNumber" projectData) = true ->
  feedback_of s userId data
  = inl (PermissionDenied "You can only provide feedback for projects in your ward")
  /\ submitFeedback s (Some userId) assigned data
     = (s, CallThrew Internal "Failed to submit feedback")
  /\ (forall (text : string) (number : Q),
        text <> ""%string -> ~ (number == 0)%Q ->
        wards_differ (JStr text) (JNum (Fin number)) = true).
Proof.
  intros Hup Hu Hp Huser Hpid Hproj Hward.
  assert (Hf : feedback_of s userId data
               = inl (PermissionDenied
                        "You can only provide feedback for projects in your ward")).
  { unfold feedback_of. rewrite Hup. cbn [negb].
    rewrite (get_document_valid_id _ userId Hu), Huser, Hpid.
    rewrite (get_document_valid_id _ projectId Hp), Hproj, Hward. reflexivity. }
  split; [exact Hf|]. split.
  - unfold submitFeedback.
    assert (Hd : prop data "projectId" <> None).
    { unfold opt_prop in Hpid. destruct (prop data "projectId"); congruence. }
    destruct (prop data "projectId"); [|contradiction]. now rewrite Hf.
  - intros text number Ht Hn. unfold wards_differ. cbn [truthy strict_eq].
    apply String.eqb_neq in Ht. rewrite Ht.
    destruct (Qeq_bool number 0) eqn:E; [|reflexivity].
    apply Qeq_bool_iff in E. contradiction.
Qed.

Lemma other_ward_feedback_is_refused_witness :
  let s := {| base := boot {[ "p1"%string := [("wardNumber", num 15)] ]};
              express_db := true;
              users := {[ "u1"%string := [("wardInfo", JObj [("wardNumber", JStr "15")])] ]};
              userFeedback := ∅; pendingProjects := ∅ |} in
  submitFeedback s (Some "u1"%string) (Some "f1"%string)
    (JObj [("projectId", JStr "p1"); ("comment", JStr "Good road"); ("rating", num 4)])
  = (s, CallThrew Internal "Failed to submit feedback").
Proof.
  cbv zeta.
  refine (proj1 (proj2 (other_ward_feedback_is_refused _ "u1"%string _ _
                          [("wardInfo", JObj [("wardNumber", JStr "15")])]
                          "p1"%string [("wardNumber", num 15)] _ _ _ _ _ _ _)));
    reflexivity.
Defined.

(** Feedback stored by the callable is attributed to the
    authenticated caller, whatever the payload says, and carries the
    project id, the comment and the rating as they were sent.  It
    exists only when the caller's uid leads to a user document and the
    project id leads to a project document whose wards do not differ:
    each of the two is a path of one segment, and the document is the
    one kept under that segment, so the stored project id names the
    project up to the slashes around it.  The callable writes to no
    other collection. *)
Theorem callable_feedback_is_attributed s auth assigned data :
  let s' := fst (submitFeedback s auth assigned data) in
  base s' = base s /\ users s' = users s
  /\ pendingProjects s' = pendingProjects s
  /\ forall id doc, userFeedback s' !! id = Some doc ->
       userFeedback s !! id = Some doc
       \/ (assigned = Some id
           /\ exists userId userDoc userData projectId projectDoc projectData,
                auth = Some userId
                /\ assoc "userId" doc = JStr userId
                /\ segments userId = [userDoc]
                /\ users s !! userDoc = Some userData
                /\ opt_prop data "projectId" = JStr projectId
                /\ assoc "projectId" doc = JStr projectId
                /\ segments projectId = [projectDoc]
                /\ projects (base s) !! projectDoc = Some projectData
                /\ wards_differ (ward_of_user userData)
                                (assoc "wardNumber" projectData) = false
                /\ assoc "comment" doc = opt_prop data "comment"
                /\ assoc "rating" doc = opt_prop data "rating").
Proof.
  cbv zeta. unfold submitFeedback.
  destruct auth as [userId|]; [|cbn [fst]; repeat split; auto].
  destruct (prop data "projectId") as [v|]; [|cbn [fst]; repeat split; auto].
  destruct (feedback_of s userId data) as [t|feedbackData] eqn:Hdoc;
    [cbn [fst]; repeat split; auto|].
  destruct assigned as [new|]; cbn [fst]; [|repeat split; auto].
  repeat split. intros id stored. cbn [userFeedback with_feedback].
  destruct (decide (new = id)) as [->|Hne].
  2: { rewrite lookup_insert_ne by exact Hne. now left. }
  rewrite lookup_insert_eq. intros [= <-]. right. split; [reflexivity|].
  unfold feedback_of in Hdoc.
  destruct (negb (firestore_up (base s))); [discriminate|].
  destruct (get_document (users s) userId) as [| |userDoc userData] eqn:Hu;
    try discriminate.
  destruct (opt_prop data "projectId") as [| |b|n|sent|items|fs];
    try discriminate.
  destruct (get_document (projects (base s)) sent) as [| |projectDoc projectData]
    eqn:Hp; try discriminate.
  destruct (wards_differ _ _) eqn:Hw; [discriminate|].
  destruct (is_undefined _ || is_undefined _); [discriminate|].
  injection Hdoc as <-.
  apply get_document_found in Hu as [Hu1 Hu2].
  apply get_document_found in Hp as [Hp1 Hp2].
  exists userId, userDoc, userData, sent, projectDoc, projectData.
  repeat split; auto.
Qed.

(** Feedback sent for [p1/] is accepted for the project [p1] and
    stored under the project id [p1/], which is no document's id. *)
Lemma feedback_for_slashed_id :
  let s := {| base := boot {[ "p1"%string := [("wardNumber", num 15)] ]};
              express_db := true;
              users := {[ "u1"%string := [("wardInfo", JObj [("wardNumber", num 15)])] ]};
              userFeedback := ∅; pendingProjects := ∅ |} in
  let sent := JObj [("projectId", JStr "p1/"); ("comment", JStr "Good road");
                    ("rating", num 4)] in
  exists stored,
    userFeedback (fst (submitFeedback s (Some "u1"%string) (Some "f1"%string) sent))
      !! "f1"%string = Some stored
    /\ assoc "projectId" stored = JStr "p1/"
    /\ valid_document_id "p1/" = false.
Proof. cbv zeta. eexists. repeat split; reflexivity. Qed.
